(** * Session lifecycle of the Tello video relay (src/App.jsx)

    The component keeps two React state cells ([errorMessage], [isStreaming])
    and two refs ([commandSocket], [ffmpegSessionId]).  Its handlers
    ([cleanup], [sendCommand], [startFFmpeg], [handleStartStream], the socket
    callbacks and the FFmpeg completion callback) are [async] functions: they
    run synchronously up to an [await], are suspended there, and are resumed
    later with the outcome of the awaited operation, possibly after other
    handlers have run and changed the cells.

    The embedding follows that shape.  A handler is a function from the
    component state to a resumption [res]: it has returned, it has thrown,
    or it waits on a request with a continuation that takes the outcome and
    the state found at resumption.  The file holds two copies of the
    streaming component (lines 56-325 and 428-711) whose lifecycle code is
    the same statement for statement; the second differs from the first only
    by not calling the orientation locker.  The definitions below follow the
    second copy. *)

From Stdlib Require Import String Ascii List Bool Arith PArith NArith Lia DecimalString.
Import ListNotations.
Local Open Scope string_scope.

(** ** Data *)

(** A UDP socket object returned by [dgram.createSocket]; sockets are
    numbered in creation order. *)
Definition socket := nat.

(** An FFmpegKit session identifier.  The library numbers its sessions from
    1, so an identifier stored in the ref is never falsy and the source's
    truthiness tests on [ffmpegSessionId.current] are null tests. *)
Definition sid := positive.

(** A JavaScript [Error], represented by its [message]. *)
Definition error := string.

(** Modelled from the spec: the [ReturnCode] class of ffmpeg-kit is not part
    of the sources; the completion outcome is one of Success, Cancelled and
    Failed, told apart by [ReturnCode.isSuccess] and [ReturnCode.isCancel]. *)
Inductive ReturnCode : Type := RcSuccess | RcCancel | RcFailed.

Definition isSuccess (rc : ReturnCode) : bool :=
  match rc with RcSuccess => true | _ => false end.

Definition isCancel (rc : ReturnCode) : bool :=
  match rc with RcCancel => true | _ => false end.

(** The asynchronous operations a handler awaits. *)
Inductive request : Type :=
| SocketBind (s : socket) (port : N)
| SocketSend (s : socket) (msg : string) (offset len port : N) (host : string)
| SetTimeout (ms : N)
| ExecuteAsync (command : string) (seenStreaming : bool)
| GetSessionId (session : sid)
| FFmpegCancel (id : sid)
| GetReturnCode (session : sid)
| GetAllLogsAsString (session : sid).

(** What each operation resolves to.  A session object is represented by
    its identifier. *)
Definition reply (rq : request) : Type :=
  match rq with
  | SocketBind _ _ | SocketSend _ _ _ _ _ _ | SetTimeout _ | FFmpegCancel _ => unit
  | ExecuteAsync _ _ | GetSessionId _ => sid
  | GetReturnCode _ => ReturnCode
  | GetAllLogsAsString _ => string
  end.

Inductive settled (X : Type) : Type :=
| Resolved (x : X)
| Rejected (e : error).
Arguments Resolved {X} x.
Arguments Rejected {X} e.

Definition failure {X} (o : settled X) : option error :=
  match o with Resolved _ => None | Rejected e => Some e end.

(** Calls made on the outside world, in the order they happen. *)
Inductive io : Type :=
| CreateSocket (s : socket)
| SocketOn (s : socket) (event : string)
| SocketClose (s : socket)
| Issue (rq : request)
| Settle (rq : request) (err : option error).

Inductive level : Type := Log | Warn | Err.

Record logline : Type := Line { line_level : level; line_args : list string }.

Record state : Type := State {
  (* useState cells *)
  errorMessage : string;
  isStreaming : bool;
  (* useRef cells *)
  commandSocket : option socket;
  ffmpegSessionId : option sid;
  (* the world outside the component *)
  sockets : nat;                          (* sockets created so far *)
  close_throws : socket -> option error;  (* what close() throws, per socket *)
  trace : list io;
  console : list logline
}.

Definition setErrorMessage_st (v : string) (st : state) : state :=
  State v (isStreaming st) (commandSocket st) (ffmpegSessionId st)
        (sockets st) (close_throws st) (trace st) (console st).

Definition setIsStreaming_st (v : bool) (st : state) : state :=
  State (errorMessage st) v (commandSocket st) (ffmpegSessionId st)
        (sockets st) (close_throws st) (trace st) (console st).

Definition set_commandSocket (v : option socket) (st : state) : state :=
  State (errorMessage st) (isStreaming st) v (ffmpegSessionId st)
        (sockets st) (close_throws st) (trace st) (console st).

Definition set_ffmpegSessionId (v : option sid) (st : state) : state :=
  State (errorMessage st) (isStreaming st) (commandSocket st) v
        (sockets st) (close_throws st) (trace st) (console st).

Definition record (e : io) (st : state) : state :=
  State (errorMessage st) (isStreaming st) (commandSocket st) (ffmpegSessionId st)
        (sockets st) (close_throws st) (trace st ++ [e]) (console st).

Definition fresh_socket (st : state) : state :=
  State (errorMessage st) (isStreaming st) (commandSocket st) (ffmpegSessionId st)
        (S (sockets st)) (close_throws st) (trace st ++ [CreateSocket (sockets st)])
        (console st).

Definition print (l : level) (args : list string) (st : state) : state :=
  State (errorMessage st) (isStreaming st) (commandSocket st) (ffmpegSessionId st)
        (sockets st) (close_throws st) (trace st) (console st ++ [Line l args]).

(** The part of the state the presentation surface and the guards read. *)
Definition session (st : state) : string * bool * option socket * option sid :=
  (errorMessage st, isStreaming st, commandSocket st, ffmpegSessionId st).

(** ** Resumptions *)

Inductive res (A : Type) : Type :=
| Val (st : state) (a : A)
| Throw (st : state) (e : error)
| Wait (st : state) (rq : request) (k : settled (reply rq) -> state -> res A).
Arguments Val {A} st a.
Arguments Throw {A} st e.
Arguments Wait {A} st rq k.

Definition M (A : Type) : Type := state -> res A.

Definition ret {A} (a : A) : M A := fun st => Val st a.

Definition throw {A} (e : error) : M A := fun st => Throw st e.

Fixpoint bind_res {A B} (r : res A) (f : A -> M B) : res B :=
  match r with
  | Val st a => f a st
  | Throw st e => Throw st e
  | Wait st rq k => Wait st rq (fun o st' => bind_res (k o st') f)
  end.

Definition bind {A B} (m : M A) (f : A -> M B) : M B :=
  fun st => bind_res (m st) f.

Fixpoint catch_res {A} (r : res A) (h : error -> M A) : res A :=
  match r with
  | Val st a => Val st a
  | Throw st e => h e st
  | Wait st rq k => Wait st rq (fun o st' => catch_res (k o st') h)
  end.

(** [try { m } catch (e) { h e }] *)
Definition try_catch {A} (m : M A) (h : error -> M A) : M A :=
  fun st => catch_res (m st) h.

Fixpoint finally_res {A} (r : res A) (f : M unit) : res A :=
  match r with
  | Val st a => bind_res (f st) (fun _ => ret a)
  | Throw st e => bind_res (f st) (fun _ => throw e)
  | Wait st rq k => Wait st rq (fun o st' => finally_res (k o st') f)
  end.

(** [try { m } finally { f }] *)
Definition try_finally {A} (m : M A) (f : M unit) : M A :=
  fun st => finally_res (m st) f.

Notation "x <- m ;; k" := (bind m (fun x => k))
  (at level 61, m at next level, right associativity).
Notation "m ;; k" := (bind m (fun _ => k))
  (at level 61, right associativity).

Definition read {A} (f : state -> A) : M A := fun st => Val st (f st).

Definition update (f : state -> state) : M unit := fun st => Val (f st) tt.

(** Start an asynchronous operation and suspend until its callback fires;
    the outcome is handed back as a value. *)
Definition callback (rq : request) : M (settled (reply rq)) :=
  fun st => Wait (record (Issue rq) st) rq
    (fun o st' => Val (record (Settle rq (failure o)) st') o).

(** [await p]: a rejection is rethrown at the await. *)
Definition await (rq : request) : M (reply rq) :=
  o <- callback rq ;;
  match o with
  | Resolved x => ret x
  | Rejected e => throw e
  end.

Definition setErrorMessage (v : string) : M unit := update (setErrorMessage_st v).
Definition setIsStreaming (v : bool) : M unit := update (setIsStreaming_st v).
Definition console_log (args : list string) : M unit := update (print Log args).
Definition console_warn (args : list string) : M unit := update (print Warn args).
Definition console_error (args : list string) : M unit := update (print Err args).

(** [dgram.createSocket({ type: 'udp4' })] *)
Definition createSocket : M socket :=
  fun st => Val (fresh_socket st) (sockets st).

(** [socket.on(event, handler)] *)
Definition socket_on (s : socket) (event : string) : M unit :=
  update (record (SocketOn s event)).

(** [socket.close()], which may throw. *)
Definition socket_close (s : socket) : M unit :=
  fun st =>
    match close_throws st s with
    | Some e => Throw (record (SocketClose s) st) e
    | None => Val (record (SocketClose s) st) tt
    end.

Definition show_N (n : N) : string := NilEmpty.string_of_uint (N.to_uint n).
Definition show_sid (i : sid) : string := NilEmpty.string_of_uint (Pos.to_uint i).

(** ** The component (src/App.jsx, lines 419-634) *)

Definition TELLO_IP : string := "192.168.10.1".
Definition TELLO_COMMAND_PORT : N := 8889%N.
Definition TELLO_VIDEO_PORT : N := 11111%N.
Definition LOCAL_COMMAND_PORT_BIND : N := 9000%N.
Definition LOCAL_VIDEO_INPUT_PORT : N := TELLO_VIDEO_PORT.
Definition LOCAL_VIDEO_OUTPUT_HTTP_PORT : N := 11112%N.

(** [cleanup] (lines 436-464). *)
Definition cleanup : M unit :=
  console_log ["Cleaning up..."] ;;
  setIsStreaming false ;;
  setErrorMessage "" ;;
  id <- read ffmpegSessionId ;;
  match id with
  | Some i =>
      console_log ["Cancelling FFmpeg session:"; show_sid i] ;;
      try_finally
        (try_catch (await (FFmpegCancel i))
           (fun e => console_error ["Error cancelling FFmpeg session:"; e]))
        (update (set_ffmpegSessionId None))
  | None => ret tt
  end ;;
  sock <- read commandSocket ;;
  match sock with
  | Some s =>
      console_log ["Closing UDP socket"] ;;
      try_finally
        (try_catch (socket_close s)
           (fun e => console_error ["Error closing socket:"; e]))
        (update (set_commandSocket None))
  | None => ret tt
  end.

(** [sendCommand] (lines 479-498).  The promise is rejected at once when the
    ref is null; otherwise it settles in the callback of [send]. *)
Definition sendCommand (command : string) : M unit :=
  sock <- read commandSocket ;;
  match sock with
  | None =>
      console_error ["sendCommand: Socket not ready."] ;;
      throw "Socket not initialized"
  | Some s =>
      console_log ["Sending command: " ++ command] ;;
      o <- callback (SocketSend s command 0%N (N.of_nat (String.length command))
                       TELLO_COMMAND_PORT TELLO_IP) ;;
      match o with
      | Rejected err =>
          console_error ["Failed to send command " ++ command ++ ":"; err] ;;
          setErrorMessage ("Failed to send command: " ++ err) ;;
          throw err
      | Resolved _ =>
          console_log ["Command " ++ command ++ " sent."]
      end
  end.

Definition ffmpegCommand : string :=
  "-f h264 -analyzeduration 1000000 -probesize 1000000 -fflags discardcorrupt -fflags nobuffer -flags low_delay -avioflags direct -i udp://0.0.0.0:"
  ++ show_N LOCAL_VIDEO_INPUT_PORT
  ++ "?timeout=5000000 -c:v copy -f mpegts -listen 1 http://127.0.0.1:"
  ++ show_N LOCAL_VIDEO_OUTPUT_HTTP_PORT.

(** The completion callback handed to [FFmpegKit.executeAsync] (lines
    522-553).  [seenStreaming] is the value of [isStreaming] captured by the
    closure; it only decides a warning. *)
Definition onFFmpegComplete (seenStreaming : bool) (completedSession : sid) : M unit :=
  returnCode <- await (GetReturnCode completedSession) ;;
  let sessionId := completedSession in
  console_log ["FFmpeg session " ++ show_sid sessionId ++ " completed."] ;;
  id <- read ffmpegSessionId ;;
  (match id with
   | Some i => if Pos.eqb i sessionId then update (set_ffmpegSessionId None) else ret tt
   | None => ret tt
   end) ;;
  if isSuccess returnCode then
    console_log ["FFmpeg process finished successfully."] ;;
    if seenStreaming then
      console_warn ["FFmpeg exited successfully while streaming was active."]
    else ret tt
  else if isCancel returnCode then
    console_log ["FFmpeg process cancelled."]
  else
    console_error ["FFmpeg process failed!"] ;;
    logs <- await (GetAllLogsAsString completedSession) ;;
    console_error ["------ FFmpeg Logs Start ------"] ;;
    console_error [if String.eqb logs "" then "No logs captured." else logs] ;;
    console_error ["------ FFmpeg Logs End --------"] ;;
    setErrorMessage "FFmpeg Error! Check console logs for details." ;;
    setIsStreaming false.

(** [startFFmpeg] (lines 501-566). *)
Definition startFFmpeg (seenStreaming : bool) : M unit :=
  setErrorMessage "" ;;
  id <- read ffmpegSessionId ;;
  match id with
  | Some i =>
      console_warn ["FFmpeg session already exists, cancelling previous one."] ;;
      await (FFmpegCancel i) ;;
      update (set_ffmpegSessionId None)
  | None => ret tt
  end ;;
  console_log ["Starting FFmpeg with command:"; ffmpegCommand] ;;
  try_catch
    (session <- await (ExecuteAsync ffmpegCommand seenStreaming) ;;
     i <- await (GetSessionId session) ;;
     update (set_ffmpegSessionId (Some i)) ;;
     console_log ["FFmpeg session starting with ID:"; show_sid i] ;;
     setIsStreaming true)
    (fun e =>
       console_error ["Failed to execute FFmpeg command:"; e] ;;
       setErrorMessage ("Failed to start FFmpeg: " ++ e) ;;
       setIsStreaming false).

(** The ['error'] handler installed on the socket (lines 585-590). *)
Definition onSocketError (err : error) : M unit :=
  let errorMsg := "UDP Socket error: " ++ err in
  console_error [errorMsg; err] ;;
  setErrorMessage errorMsg ;;
  cleanup.

(** The ['message'] handler installed on the socket (lines 593-595). *)
Definition onSocketMessage (msg address : string) (port : N) : M unit :=
  console_log ["Drone response: " ++ msg ++ " from " ++ address ++ ":" ++ show_N port].

(** [handleStartStream] (lines 570-628).  [seenStreaming] is the value of
    [isStreaming] in the render the handler belongs to. *)
Definition handleStartStream (seenStreaming : bool) : M unit :=
  sock <- read commandSocket ;;
  id <- read ffmpegSessionId ;;
  match seenStreaming, sock, id with
  | false, None, None =>
      setErrorMessage "" ;;
      setIsStreaming false ;;
      try_catch
        (console_log ["Creating UDP command socket..."] ;;
         s <- createSocket ;;
         update (set_commandSocket (Some s)) ;;
         socket_on s "error" ;;
         socket_on s "message" ;;
         bound <- callback (SocketBind s LOCAL_COMMAND_PORT_BIND) ;;
         match bound with
         | Rejected err =>
             let bindError :=
               "Failed to bind socket to port " ++ show_N LOCAL_COMMAND_PORT_BIND
               ++ ": " ++ err in
             console_error ["Socket bind error:"; bindError] ;;
             throw bindError
         | Resolved _ =>
             console_log ["Socket bound successfully to port "
                          ++ show_N LOCAL_COMMAND_PORT_BIND]
         end ;;
         sendCommand "command" ;;
         await (SetTimeout 500%N) ;;
         sendCommand "streamon" ;;
         await (SetTimeout 500%N) ;;
         console_log ["Drone commands sent. Starting FFmpeg..."] ;;
         startFFmpeg seenStreaming)
        (fun e =>
           console_error ["Initialization failed:"; e] ;;
           setErrorMessage ("Initialization failed: " ++ e) ;;
           cleanup)
  | _, _, _ =>
      console_log ["Already streaming or attempting to start."]
  end.

(** [handleDisconnectPress] (lines 631-634); the promise of [cleanup] is
    dropped, so the handler is the run of [cleanup] itself. *)
Definition handleDisconnectPress : M unit :=
  console_log ["Disconnect button pressed."] ;;
  cleanup.

(** The entry points seen by the presentation surface.  A button handler
    belongs to the latest render, so the [isStreaming] it has captured is
    the current cell. *)
Definition start : M unit := fun st => handleStartStream (isStreaming st) st.
Definition stop : M unit := handleDisconnectPress.

(** ** Running handlers *)

(** What the outside world can hand back to a suspended handler. *)
Inductive answer : Type :=
| Fine                      (* the callback fires without an error *)
| Fails (e : error)         (* the callback reports an error, the promise rejects *)
| GivesId (i : sid)
| GivesCode (rc : ReturnCode)
| GivesText (s : string).

(** An answer fits a request when it has the request's reply type; a timer
    cannot fail. *)
Definition cast (rq : request) (a : answer) : option (settled (reply rq)) :=
  match rq return option (settled (reply rq)) with
  | SocketBind _ _ | SocketSend _ _ _ _ _ _ | FFmpegCancel _ =>
      match a with
      | Fine => Some (Resolved tt)
      | Fails e => Some (Rejected e)
      | _ => None
      end
  | SetTimeout _ =>
      match a with
      | Fine => Some (Resolved tt)
      | _ => None
      end
  | ExecuteAsync _ _ | GetSessionId _ =>
      match a with
      | GivesId i => Some (Resolved i)
      | Fails e => Some (Rejected e)
      | _ => None
      end
  | GetReturnCode _ =>
      match a with
      | GivesCode rc => Some (Resolved rc)
      | Fails e => Some (Rejected e)
      | _ => None
      end
  | GetAllLogsAsString _ =>
      match a with
      | GivesText s => Some (Resolved s)
      | Fails e => Some (Rejected e)
      | _ => None
      end
  end.

(** Run one handler alone: each awaited operation is answered in turn and
    nothing else runs in between.  The run stops at the first await left
    unanswered (or answered with a value of the wrong type). *)
Fixpoint run {A} (r : res A) (answers : list answer) : res A :=
  match answers with
  | [] => r
  | a :: rest =>
      match r with
      | Wait st rq k =>
          match cast rq a with
          | Some o => run (k o st) rest
          | None => r
          end
      | _ => r
      end
  end.

Definition state_of {A} (r : res A) : state :=
  match r with
  | Val st _ | Throw st _ | Wait st _ _ => st
  end.

(** The handler has returned normally. *)
Definition returned {A} (r : res A) : bool :=
  match r with Val _ _ => true | _ => false end.

(** The request a suspended handler waits on. *)
Definition waits_on {A} (r : res A) : option request :=
  match r with Wait _ rq _ => Some rq | _ => None end.

(** The component as mounted: nothing streaming, no error, both refs null. *)
Definition mounted (ct : socket -> option error) : state :=
  State "" false None None 0 ct [] [].

(** ** Interleaved execution

    All handlers run on one event loop.  A configuration is the current
    state together with the handlers suspended at an await.  An event either
    enters a handler (a button press, the unmount effect, a socket callback,
    the relay's completion callback) or resumes one suspended handler with
    an answer; the handler then runs up to its next await.  The socket and
    relay callbacks are allowed to fire at any time, and a pressed start
    button may belong to any render: the [isStreaming] it has captured need
    not be the current cell. *)

Record task : Type := Task {
  awaiting : request;
  resume : settled (reply awaiting) -> state -> res unit
}.

Record config : Type := Config { now : state; pending : list task }.

Inductive event : Type :=
| PressStart (seenStreaming : bool)
| PressStop
| Unmount
| SocketFault (err : error)
| SocketDatagram (msg address : string) (port : N)
| RelayCompleted (seenStreaming : bool) (session : sid)
| Resume (i : nat) (a : answer).

Fixpoint remove_nth {A} (i : nat) (l : list A) : list A :=
  match l, i with
  | [], _ => []
  | _ :: l', 0 => l'
  | x :: l', S i' => x :: remove_nth i' l'
  end.

(** A handler has run up to its next await (or to its end); an exception
    that reaches the event loop is dropped there. *)
Definition land (r : res unit) (others : list task) : config :=
  match r with
  | Val st _ | Throw st _ => Config st others
  | Wait st rq k => Config st (others ++ [Task rq k])
  end.

Definition exec (c : config) (ev : event) : config :=
  match ev with
  | PressStart seen => land (handleStartStream seen (now c)) (pending c)
  | PressStop => land (handleDisconnectPress (now c)) (pending c)
  | Unmount => land (cleanup (now c)) (pending c)
  | SocketFault err => land (onSocketError err (now c)) (pending c)
  | SocketDatagram msg address port =>
      land (onSocketMessage msg address port (now c)) (pending c)
  | RelayCompleted seen s => land (onFFmpegComplete seen s (now c)) (pending c)
  | Resume i a =>
      match nth_error (pending c) i with
      | Some t =>
          match cast (awaiting t) a with
          | Some o => land (resume t o (now c)) (remove_nth i (pending c))
          | None => c
          end
      | None => c
      end
  end.

Definition execs (c : config) (evs : list event) : config := fold_left exec evs c.

Definition boot (ct : socket -> option error) : config := Config (mounted ct) [].

(** ** Predicates *)

(** Every way the handler can go on, whatever the answers and whatever state
    it finds when resumed, ends in [Q] when it returns and in [E] when it
    throws. *)
Fixpoint wp {A} (r : res A) (Q : state -> A -> Prop) (E : state -> error -> Prop) : Prop :=
  match r with
  | Val st a => Q st a
  | Throw st e => E st e
  | Wait _ _ k => forall o st', wp (k o st') Q E
  end.

(** Every stretch the handler runs between two awaits keeps [P], from the
    state [st0] it starts the stretch in. *)
Fixpoint keeps {A} (P : state -> Prop) (st0 : state) (r : res A) : Prop :=
  match r with
  | Val st _ | Throw st _ => P st0 -> P st
  | Wait st _ k => (P st0 -> P st) /\ forall o st', keeps P st' (k o st')
  end.

(** The handler run alone, nothing else running while it is suspended:
    whatever the answers, every state it is suspended in satisfies [W], it
    ends in [Q] when it returns and in [E] when it throws. *)
Fixpoint alone {A} (r : res A) (W : state -> Prop)
    (Q : state -> A -> Prop) (E : state -> error -> Prop) : Prop :=
  match r with
  | Val st a => Q st a
  | Throw st e => E st e
  | Wait st _ k => W st /\ forall o, alone (k o st) W Q E
  end.

(** Both handles released: the channel ref is null and no relay is tracked. *)
Definition torn_down (st : state) : Prop :=
  commandSocket st = None /\ ffmpegSessionId st = None.

(** What the presentation surface sees in the Idle state: no stream and no
    error message. *)
Definition idle (st : state) : Prop :=
  isStreaming st = false /\ errorMessage st = "".

(** A handle is held only under a visible stream or a visible error. *)
Definition accounted (st : state) : Prop :=
  torn_down st \/ isStreaming st = true \/ errorMessage st <> "".

(** A suspended handler that will account for the handles when it ends. *)
Definition settles (t : task) : Prop :=
  forall o st, wp (resume t o st) (fun st' _ => accounted st') (fun st' _ => accounted st').

(** A suspended handler that never breaks [accounted]. *)
Definition harmless (t : task) : Prop :=
  forall o st, keeps accounted st (resume t o st).

Definition lifecycle_inv (c : config) : Prop :=
  (accounted (now c) \/ Exists settles (pending c))
  /\ Forall (fun t => settles t \/ harmless t) (pending c).

(** Sockets closed and relay launches requested, read off the trace. *)
Fixpoint closes (t : list io) : list socket :=
  match t with
  | [] => []
  | SocketClose s :: t' => s :: closes t'
  | _ :: t' => closes t'
  end.

Fixpoint launches (t : list io) : nat :=
  match t with
  | [] => 0
  | Issue (ExecuteAsync _ _) :: t' => S (launches t')
  | _ :: t' => launches t'
  end.

(** The answer to a cancellation or a send: it went through, or it failed
    with an error. *)
Definition outcome (failed : option error) : answer :=
  match failed with None => Fine | Some e => Fails e end.

(** [needle] occurs in [hay]. *)
Definition occurs_in (needle hay : string) : bool :=
  match String.index 0 needle hay with Some _ => true | None => false end.

(** The handshake on socket [s]: two datagrams to the drone's command port,
    each followed by a 500 ms timer. *)
Definition send_to_drone (s : socket) (command : string) : request :=
  SocketSend s command 0 (N.of_nat (String.length command)) TELLO_COMMAND_PORT TELLO_IP.

Definition handshake (s : socket) : list io :=
  [ Issue (send_to_drone s "command");  Settle (send_to_drone s "command") None;
    Issue (SetTimeout 500);             Settle (SetTimeout 500) None;
    Issue (send_to_drone s "streamon"); Settle (send_to_drone s "streamon") None;
    Issue (SetTimeout 500);             Settle (SetTimeout 500) None ].

(** Sends and timers started, and those that completed without an error. *)
Definition handshake_step (e : io) : bool :=
  match e with
  | Issue (SocketSend _ _ _ _ _ _) | Issue (SetTimeout _) => true
  | Settle (SocketSend _ _ _ _ _ _) None | Settle (SetTimeout _) None => true
  | _ => false
  end.

(** Since the state [st0], the sends and timers started and completed are
    the first [n] steps of the handshake on the socket created then. *)
Definition steps_done (st0 : state) (n : nat) (st : state) : Prop :=
  exists d,
    trace st = (trace st0 ++ d)%list
    /\ filter handshake_step d = firstn n (handshake (sockets st0)).

Definition handshake_so_far (st0 st : state) : Prop :=
  exists n, steps_done st0 n st.

(** A session that streams from socket 0 with relay session [i]. *)
Definition streaming (i : sid) : state :=
  State "" true (Some 0) (Some i) 1 (fun _ => None) [] [].

(** [n] presses of the stop button in a row, each run to its end; [failed]
    is how the cancellation of the relay went, when one was requested. *)
Fixpoint stops (n : nat) (failed : option error) (st : state) : state :=
  match n with
  | 0 => st
  | S n' => stops n' failed (state_of (run (stop st) [outcome failed]))
  end.

(** The answers that take [start] through the bind and the handshake. *)
Definition handshake_done : list answer := [Fine; Fine; Fine; Fine; Fine].

(** The reading of the spec that a completion for another session than the
    tracked one changes nothing: identifier, streaming flag and error
    message are as before. *)
Definition stale_completion_ignored
    (seen : bool) (s : sid) (st : state) (answers : list answer) : Prop :=
  ffmpegSessionId st <> Some s ->
  let st' := state_of (run (onFFmpegComplete seen s st) answers) in
  ffmpegSessionId st' = ffmpegSessionId st
  /\ isStreaming st' = isStreaming st
  /\ errorMessage st' = errorMessage st.

(** The reading of the spec that a failed launch ends in the Error state
    after a full teardown. *)
Definition launch_failure_tears_down (st : state) (e : error) : Prop :=
  isStreaming st = false -> torn_down st ->
  let r := run (start st) (handshake_done ++ [Fails e]) in
  returned r = true
  /\ errorMessage (state_of r) <> ""
  /\ torn_down (state_of r)
  /\ In (sockets st) (closes (trace (state_of r))).

(** The reading of the spec that the error message of a failed relay
    carries the captured log. *)
Definition failure_message_carries_log
    (seen : bool) (s : sid) (st : state) (logs : string) : Prop :=
  isStreaming st = true ->
  let r := run (onFFmpegComplete seen s st) [GivesCode RcFailed; GivesText logs] in
  isStreaming (state_of r) = false
  /\ errorMessage (state_of r) <> ""
  /\ occurs_in logs (errorMessage (state_of r)) = true.

(** ** The screen (src/App.jsx, lines 637-711) *)

(** [onVideoLoad] (lines 637-643); [seenError] is the [errorMessage] captured
    by the closure. *)
Definition onVideoLoad (seenError : string) : M unit :=
  console_log ["Video player loaded stream successfully!"] ;;
  if String.eqb seenError "" then ret tt else setErrorMessage "".

(** The object the player hands to [onError]: the fields the handler reads,
    each possibly missing, and the text [JSON.stringify(err, null, 2)] gives
    for it. *)
Record playerError : Type := PlayerError {
  localizedDescription : option string;
  localizedFailureReason : option string;
  message : option string
}.

Record videoError : Type := VideoError {
  inner : option playerError;     (* err.error *)
  stringified : string
}.

(** [err.error?.field] *)
Definition optional (e : option playerError) (field : playerError -> option string)
  : option string :=
  match e with Some x => field x | None => None end.

(** [a || b] on values that are strings or undefined: the empty string is
    falsy. *)
Definition or_else (a b : option string) : option string :=
  match a with
  | Some s => if String.eqb s "" then b else Some s
  | None => b
  end.

(** A value that [||] passes over: undefined or the empty string. *)
Definition falsy (a : option string) : Prop := a = None \/ a = Some "".

Definition or_text (a : option string) (b : string) : string :=
  match a with
  | Some s => if String.eqb s "" then b else s
  | None => b
  end.

(** [onVideoError] (lines 645-653). *)
Definition onVideoError (err : videoError) : M unit :=
  console_error ["Video player error:"; stringified err] ;;
  let videoErrorMsg :=
    or_text (or_else (or_else (optional (inner err) localizedDescription)
                               (optional (inner err) localizedFailureReason))
                     (optional (inner err) message))
            "Unknown video player error" in
  setErrorMessage ("Video Player Error: " ++ videoErrorMsg ++ ". Check console.").

(** What the component renders (lines 656-711), without the styling. *)
Inductive handler : Type := HandleStartStream | HandleDisconnectPress.

Inductive videoArea : Type :=
| Video (uri : string) (paused : bool)
| Placeholder (text : string).

Record screen : Type := Screen {
  errorContainer : option string;
  videoContainer : videoArea;
  button_label : string;
  button_onPress : handler
}.

Definition render (st : state) : screen :=
  let errorContainer :=
    if String.eqb (errorMessage st) "" then None else Some (errorMessage st) in
  let videoContainer :=
    if isStreaming st
    then Video ("http://127.0.0.1:" ++ show_N LOCAL_VIDEO_OUTPUT_HTTP_PORT)
               (negb (isStreaming st))
    else Placeholder "Stream Paused / Disconnected" in
  match isStreaming st, commandSocket st, ffmpegSessionId st with
  | false, None, None =>
      Screen errorContainer videoContainer "Start Stream" HandleStartStream
  | _, _, _ =>
      Screen errorContainer videoContainer "Disconnect" HandleDisconnectPress
  end.

(** The exception a handler has ended with. *)
Definition thrown {A} (r : res A) : option error :=
  match r with Throw _ e => Some e | _ => None end.

(** ** More to read off the trace *)

(** The datagrams handed to a socket, and the relay sessions a cancellation
    was requested for. *)
Fixpoint datagrams (t : list io) : list string :=
  match t with
  | [] => []
  | Issue (SocketSend _ msg _ _ _ _) :: t' => msg :: datagrams t'
  | _ :: t' => datagrams t'
  end.

Fixpoint cancels (t : list io) : list sid :=
  match t with
  | [] => []
  | Issue (FFmpegCancel i) :: t' => i :: cancels t'
  | _ :: t' => cancels t'
  end.

(** The socket a call is made on. *)
Definition uses (e : io) : option socket :=
  match e with
  | SocketOn s _ | SocketClose s => Some s
  | Issue (SocketBind s _) | Issue (SocketSend s _ _ _ _ _) => Some s
  | _ => None
  end.

(** No call is made on a socket after [close] has been called on it (so no
    socket is closed twice either). *)
Definition never_used_after_close (t : list io) : Prop :=
  forall t1 e t2 s,
    t = (t1 ++ e :: t2)%list -> uses e = Some s -> ~ In s (closes t1).

(** What holds of the channel ref [cs], the socket counter [n] and the
    trace [t] between two stretches of code: no call was made on a closed
    socket; the sockets closed were created; every socket created is the
    one in the ref or has been closed; and the one in the ref has been
    created and is open. *)
Definition channel_inv (cs : option socket) (n : nat) (t : list io) : Prop :=
  never_used_after_close t
  /\ (forall s, In s (closes t) -> s < n)
  /\ (forall s, s < n -> cs = Some s \/ In s (closes t))
  /\ (forall s, cs = Some s -> s < n /\ ~ In s (closes t)).

Definition channel_ok (st : state) : Prop :=
  channel_inv (commandSocket st) (sockets st) (trace st).

(** A suspended handler every stretch of which keeps [P]. *)
Definition keeper (P : state -> Prop) (t : task) : Prop :=
  forall o st, keeps P st (resume t o st).

(** The state satisfies [P] and every suspended handler keeps it. *)
Definition stable (P : state -> Prop) (c : config) : Prop :=
  P (now c) /\ Forall (keeper P) (pending c).

(** * Properties *)

(** ** Rules for [wp] *)

Lemma wp_mono {A} (r : res A) (Q Q' : state -> A -> Prop) (E E' : state -> error -> Prop) :
  (forall st a, Q st a -> Q' st a) ->
  (forall st e, E st e -> E' st e) ->
  wp r Q E -> wp r Q' E'.
Proof.
  intros HQ HE. induction r as [st a|st e|st rq k IH]; simpl; auto.
Qed.

Lemma run_settled {A} (r : res A) (answers : list answer) :
  waits_on r = None -> run r answers = r.
Proof.
  destruct answers, r; simpl; intros H; try reflexivity; discriminate.
Qed.

(** ** Teardown *)

Ltac open_handler :=
  unfold bind, try_catch, try_finally, await, callback, read, update, ret, throw,
    setErrorMessage, setIsStreaming, console_log, console_warn, console_error,
    socket_close; simpl.

(** Walk through a handler: answer every await both ways, split on every
    cell that is read. *)
Ltac walk :=
  repeat first
    [ progress simpl
    | match goal with
      | |- forall (_ : settled _) (_ : state), _ => intros [?|?] ?
      | |- wp ?r _ _ =>
          match r with
          | context [match ?x with _ => _ end] => destruct x eqn:?
          end
      end ].

(** However [cleanup] proceeds, it returns, and with both refs null. *)
Lemma cleanup_wp (st : state) :
  wp (cleanup st) (fun st' _ => torn_down st') (fun _ _ => False).
Proof.
  unfold cleanup. open_handler. walk; unfold torn_down; simpl; auto.
Qed.

Ltac settle_accounts :=
  unfold accounted, torn_down; simpl;
  first [ exact I
        | left; split; reflexivity
        | right; left; reflexivity
        | right; right; discriminate
        | tauto ].

(** Past its guard, [handleStartStream] ends with the stream on, with an
    error message, or after a full [cleanup]. *)
Lemma handleStartStream_wp (st : state) :
  commandSocket st = None -> ffmpegSessionId st = None ->
  wp (handleStartStream false st) (fun st' _ => accounted st') (fun st' _ => accounted st').
Proof.
  intros Hs Hi. unfold handleStartStream, sendCommand, startFFmpeg, cleanup.
  open_handler. rewrite Hs, Hi. walk; settle_accounts.
Qed.

Lemma stop_wp (st : state) :
  wp (stop st) (fun st' _ => torn_down st') (fun _ _ => False).
Proof.
  unfold stop, handleDisconnectPress. open_handler. apply cleanup_wp.
Qed.

Lemma onSocketError_wp (err : error) (st : state) :
  wp (onSocketError err st) (fun st' _ => torn_down st') (fun _ _ => False).
Proof.
  unfold onSocketError. open_handler. apply cleanup_wp.
Qed.

(** ** Handlers that leave the accounts alone *)

Ltac walk_keeps :=
  repeat first
    [ progress simpl
    | match goal with
      | |- _ /\ _ => split
      | |- forall (_ : settled _) (_ : state), _ => intros [?|?] ?
      | |- keeps _ _ ?r =>
          match r with
          | context [match ?x with _ => _ end] => destruct x eqn:?
          end
      end ].

Lemma onFFmpegComplete_keeps (seen : bool) (s : sid) (st : state) :
  keeps accounted st (onFFmpegComplete seen s st).
Proof.
  unfold onFFmpegComplete. open_handler. walk_keeps;
    unfold accounted, torn_down; simpl; try tauto;
    intros _; right; right; discriminate.
Qed.

Lemma onSocketMessage_keeps (msg address : string) (port : N) (st : state) :
  keeps accounted st (onSocketMessage msg address port st).
Proof.
  unfold onSocketMessage. open_handler. unfold accounted, torn_down; simpl; tauto.
Qed.

(** [handleStartStream] either passes its guard and accounts for what it
    acquires, or returns at once. *)
Lemma start_cases (seen : bool) (st : state) :
  wp (handleStartStream seen st)
     (fun st' _ => accounted st') (fun st' _ => accounted st')
  \/ keeps accounted st (handleStartStream seen st).
Proof.
  destruct seen, (commandSocket st) eqn:Hs, (ffmpegSessionId st) eqn:Hi;
    try (right; unfold handleStartStream; open_handler; rewrite ?Hs, ?Hi; simpl;
         unfold accounted, torn_down; simpl; tauto).
  left. apply handleStartStream_wp; assumption.
Qed.

(** ** The lifecycle invariant *)

Lemma Exists_remove_nth {A} (P : A -> Prop) (l : list A) (i : nat) (x : A) :
  nth_error l i = Some x -> Exists P l -> P x \/ Exists P (remove_nth i l).
Proof.
  revert i. induction l as [|y l IH]; intros [|i] Hn Hex; simpl in *; try discriminate.
  - inversion Hn; subst. inversion Hex; subst; auto.
  - inversion Hex; subst.
    + right. constructor. assumption.
    + destruct (IH i Hn H0) as [Hx|Hr]; auto.
Qed.

Lemma Forall_remove_nth {A} (P : A -> Prop) (l : list A) (i : nat) :
  Forall P l -> Forall P (remove_nth i l).
Proof.
  revert i. induction l as [|y l IH]; intros [|i] Hall; simpl; auto;
    inversion Hall; subst; auto.
Qed.

Lemma land_settles (r : res unit) (others : list task) :
  wp r (fun st' _ => accounted st') (fun st' _ => accounted st') ->
  Forall (fun t => settles t \/ harmless t) others ->
  lifecycle_inv (land r others).
Proof.
  intros Hr Hall. destruct r as [st a|st e|st rq k]; simpl in *.
  - split; auto.
  - split; auto.
  - assert (Hk : settles (Task rq k)) by exact Hr.
    split.
    + right. apply Exists_app. right. constructor. exact Hk.
    + apply Forall_app. split; auto.
Qed.

Lemma land_keeps (st0 : state) (r : res unit) (others : list task) :
  keeps accounted st0 r ->
  accounted st0 \/ Exists settles others ->
  Forall (fun t => settles t \/ harmless t) others ->
  lifecycle_inv (land r others).
Proof.
  intros Hr Hor Hall. destruct r as [st a|st e|st rq k]; simpl in *.
  - split; auto. destruct Hor; auto.
  - split; auto. destruct Hor; auto.
  - destruct Hr as [Hkeep Hk]. split.
    + destruct Hor as [H|H]; auto. right. apply Exists_app. auto.
    + apply Forall_app; split; [ assumption | constructor; [ right; exact Hk | constructor ] ].
Qed.

Lemma wp_torn_down_accounted (r : res unit) :
  wp r (fun st' _ => torn_down st') (fun _ _ => False) ->
  wp r (fun st' _ => accounted st') (fun st' _ => accounted st').
Proof.
  apply wp_mono.
  - intros st _ H. left. exact H.
  - intros _ _ [].
Qed.

Lemma exec_inv (c : config) (ev : event) :
  lifecycle_inv c -> lifecycle_inv (exec c ev).
Proof.
  intros [Hacc Hall].
  destruct ev as [seen| | |err|msg address port|seen s|i a]; unfold exec.
  - destruct (start_cases seen (now c)) as [H|H].
    + apply land_settles; assumption.
    + apply land_keeps with (st0 := now c); assumption.
  - apply land_settles; auto. apply wp_torn_down_accounted, stop_wp.
  - apply land_settles; auto. apply wp_torn_down_accounted, cleanup_wp.
  - apply land_settles; auto. apply wp_torn_down_accounted, onSocketError_wp.
  - apply land_keeps with (st0 := now c); auto. apply onSocketMessage_keeps.
  - apply land_keeps with (st0 := now c); auto. apply onFFmpegComplete_keeps.
  - destruct (nth_error (pending c) i) as [t|] eqn:Hn; [ | split; assumption ].
    destruct (cast (awaiting t) a) as [o|]; [ | split; assumption ].
    assert (Hrest := Forall_remove_nth _ _ i Hall).
    assert (Ht : settles t \/ harmless t).
    { rewrite Forall_forall in Hall. apply Hall. eapply nth_error_In; eauto. }
    assert (Hs : settles t -> lifecycle_inv (land (resume t o (now c)) (remove_nth i (pending c)))).
    { intros H. apply land_settles; auto. }
    destruct Ht as [Ht|Ht]; auto.
    destruct Hacc as [Hacc|Hex].
    + apply land_keeps with (st0 := now c); auto.
    + destruct (Exists_remove_nth _ _ _ _ Hn Hex) as [H|H]; auto.
      apply land_keeps with (st0 := now c); auto.
Qed.

Lemma execs_inv (evs : list event) (c : config) :
  lifecycle_inv c -> lifecycle_inv (execs c evs).
Proof.
  revert c. induction evs as [|ev evs IH]; intros c Hc; simpl; auto.
  apply IH, exec_inv, Hc.
Qed.

Lemma boot_inv (ct : socket -> option error) : lifecycle_inv (boot ct).
Proof.
  split; simpl; [ left; left; split; reflexivity | constructor ].
Qed.

(** The refs of an idle session.  After any sequence of start and stop
    presses, unmounts, socket faults, datagrams and relay completions,
    interleaved in any order with the answers to the awaited operations,
    once no handler is left suspended a session that shows neither a stream
    nor an error has both refs null.  This says what the session remembers,
    not what it has released. *)
Lemma idle_holds_no_handle (ct : socket -> option error) (evs : list event) :
  pending (execs (boot ct) evs) = [] ->
  idle (now (execs (boot ct) evs)) ->
  torn_down (now (execs (boot ct) evs)).
Proof.
  intros Hp [Hs He].
  destruct (execs_inv evs (boot ct) (boot_inv ct)) as [[Hacc|Hex] _].
  - destruct Hacc as [H|[H|H]]; auto; congruence.
  - rewrite Hp in Hex. inversion Hex.
Qed.

Lemma idle_holds_no_handle_witness :
  let evs := [PressStart false; Resume 0 Fine; Resume 0 Fine; Resume 0 Fine; Resume 0 Fine;
              Resume 0 Fine; Resume 0 (GivesId 1%positive); Resume 0 (GivesId 1%positive);
              PressStop; Resume 0 Fine] in
  pending (execs (boot (fun _ => None)) evs) = []
  /\ idle (now (execs (boot (fun _ => None)) evs))
  /\ torn_down (now (execs (boot (fun _ => None)) evs)).
Proof.
  intros evs.
  assert (Hp : pending (execs (boot (fun _ => None)) evs) = []) by reflexivity.
  assert (Hi : idle (now (execs (boot (fun _ => None)) evs))) by (split; reflexivity).
  split; [ exact Hp | split; [ exact Hi | ] ].
  exact (idle_holds_no_handle (fun _ => None) evs Hp Hi).
Defined.


(** ** The start guard *)

(** C8.  When [start] is called while the stream is on, or while the channel
    ref or the relay identifier is set (a start is in flight), it returns at
    once: no socket is created, nothing is requested from the outside world
    (no bind, no launch), and the cells are as before. *)
Theorem start_refused (st : state) :
  isStreaming st = true \/ commandSocket st <> None \/ ffmpegSessionId st <> None ->
  start st = Val (print Log ["Already streaming or attempting to start."] st) tt
  /\ session (state_of (start st)) = session st
  /\ sockets (state_of (start st)) = sockets st
  /\ trace (state_of (start st)) = trace st.
Proof.
  intros H. unfold start, handleStartStream. open_handler.
  destruct (isStreaming st) eqn:Hst, (commandSocket st) eqn:Hs,
           (ffmpegSessionId st) eqn:Hi; simpl;
    try (unfold session; simpl; rewrite ?Hst, ?Hs, ?Hi; repeat split; reflexivity).
  exfalso. destruct H as [H|[H|H]]; congruence.
Qed.

Lemma start_refused_witness :
  (isStreaming (streaming 1%positive) = true \/ commandSocket (streaming 1%positive) <> None
   \/ ffmpegSessionId (streaming 1%positive) <> None)
  /\ sockets (state_of (start (streaming 1%positive))) = 1
  /\ trace (state_of (start (streaming 1%positive))) = [].
Proof.
  assert (H : isStreaming (streaming 1%positive) = true \/ commandSocket (streaming 1%positive) <> None
              \/ ffmpegSessionId (streaming 1%positive) <> None) by (left; reflexivity).
  split; [ exact H | ].
  destruct (start_refused (streaming 1%positive) H) as (_ & _ & Hn & Ht).
  split; [ exact Hn | exact Ht ].
Defined.

(** ** Stop *)

Lemma stop_when_idle (st : state) :
  idle st -> torn_down st ->
  returned (stop st) = true
  /\ idle (state_of (stop st)) /\ torn_down (state_of (stop st))
  /\ session (state_of (stop st)) = session st
  /\ sockets (state_of (stop st)) = sockets st
  /\ trace (state_of (stop st)) = trace st.
Proof.
  intros [Hst He] [Hs Hi]. unfold stop, handleDisconnectPress, cleanup. open_handler.
  rewrite Hi. simpl. rewrite Hs. simpl.
  unfold idle, torn_down, session; simpl. rewrite Hst, He, Hs, Hi. repeat split.
Qed.

Lemma stop_alone (st : state) (failed : option error) :
  returned (run (stop st) [outcome failed]) = true
  /\ idle (state_of (run (stop st) [outcome failed]))
  /\ torn_down (state_of (run (stop st) [outcome failed])).
Proof.
  destruct st as [em str [s|] [i|] n ct tr co], failed as [e|]; vm_compute;
    try destruct (ct s); repeat split.
Qed.

(** C9.  [stop] never raises, whatever the cancellation answers, whatever
    [close] throws and whatever runs while it is suspended, and it ends with
    both refs null.  On a session that is idle with both refs null it
    returns at once and changes no cell and requests nothing.  Pressed [n+1]
    times in a row, it leaves the session as the first press left it: idle,
    both refs null, no further request. *)
Theorem stop_total_idempotent :
  (forall st, wp (stop st) (fun st' _ => torn_down st') (fun _ _ => False))
  /\ (forall st, idle st -> torn_down st ->
        returned (stop st) = true
        /\ session (state_of (stop st)) = session st
        /\ sockets (state_of (stop st)) = sockets st
        /\ trace (state_of (stop st)) = trace st)
  /\ (forall n st failed,
        returned (run (stop st) [outcome failed]) = true
        /\ idle (stops (S n) failed st)
        /\ torn_down (stops (S n) failed st)
        /\ session (stops (S n) failed st) = session (stops 1 failed st)
        /\ sockets (stops (S n) failed st) = sockets (stops 1 failed st)
        /\ trace (stops (S n) failed st) = trace (stops 1 failed st)).
Proof.
  split; [ exact stop_wp | split ].
  - intros st Hidle Htorn.
    destruct (stop_when_idle st Hidle Htorn) as (Hr & _ & _ & Hs & Hn & Ht). auto.
  - intros n st failed.
    destruct (stop_alone st failed) as (Hr & Hidle & Htorn).
    split; [ exact Hr | ].
    change (stops (S n) failed st)
      with (stops n failed (state_of (run (stop st) [outcome failed]))).
    change (stops 1 failed st) with (state_of (run (stop st) [outcome failed])).
    generalize dependent (state_of (run (stop st) [outcome failed])).
    clear Hr. induction n as [|n IH]; intros st1 Hidle Htorn; simpl.
    + repeat split; solve [ apply Hidle | apply Htorn ].
    + destruct (stop_when_idle st1 Hidle Htorn) as (Hr & Hidle' & Htorn' & Hs & Hn & Ht).
      rewrite (run_settled (stop st1)) by (destruct (stop st1); simpl in *; congruence).
      destruct (IH _ Hidle' Htorn') as (H1 & H2 & H3 & H4 & H5).
      repeat split; try solve [ apply H1 | apply H2 ]; congruence.
Qed.

Lemma stop_total_idempotent_witness :
  idle (mounted (fun _ => None)) /\ torn_down (mounted (fun _ => None))
  /\ returned (stop (mounted (fun _ => None))) = true
  /\ trace (state_of (stop (mounted (fun _ => None)))) = [].
Proof.
  assert (Hi : idle (mounted (fun _ => None))) by (split; reflexivity).
  assert (Ht : torn_down (mounted (fun _ => None))) by (split; reflexivity).
  split; [ exact Hi | split; [ exact Ht | ] ].
  destruct stop_total_idempotent as (_ & Hidle & _).
  destruct (Hidle (mounted (fun _ => None)) Hi Ht) as (Hr & _ & _ & Htr).
  split; [ exact Hr | exact Htr ].
Defined.

(** ** The completion callback *)

(** C10.  When the relay completes with Success while the stream is on, the
    callback returns with the stream still on and the error message, the
    channel and the outside world untouched (only the return code was asked
    for); the tracked identifier is cleared when it is the completed
    session's and kept otherwise. *)
Theorem success_completion_frame (seen : bool) (s : sid) (st : state) :
  isStreaming st = true ->
  let r := run (onFFmpegComplete seen s st) [GivesCode RcSuccess] in
  returned r = true
  /\ isStreaming (state_of r) = true
  /\ errorMessage (state_of r) = errorMessage st
  /\ commandSocket (state_of r) = commandSocket st
  /\ (ffmpegSessionId st = Some s -> ffmpegSessionId (state_of r) = None)
  /\ (ffmpegSessionId st <> Some s -> ffmpegSessionId (state_of r) = ffmpegSessionId st)
  /\ sockets (state_of r) = sockets st
  /\ trace (state_of r) = (trace st ++ [Issue (GetReturnCode s); Settle (GetReturnCode s) None])%list.
Proof.
  intros Hst. unfold onFFmpegComplete. open_handler.
  destruct (ffmpegSessionId st) as [i|] eqn:Hi; simpl.
  - destruct (Pos.eqb_spec i s) as [->|Hne]; simpl; destruct seen; simpl;
      rewrite <- ?app_assoc; simpl; repeat split; auto; try congruence.
  - destruct seen; simpl; rewrite <- ?app_assoc; simpl; repeat split; auto; congruence.
Qed.

Lemma success_completion_frame_witness :
  isStreaming (streaming 1%positive) = true
  /\ ffmpegSessionId
       (state_of (run (onFFmpegComplete false 1%positive (streaming 1%positive))
                    [GivesCode RcSuccess])) = None
  /\ isStreaming
       (state_of (run (onFFmpegComplete false 1%positive (streaming 1%positive))
                    [GivesCode RcSuccess])) = true.
Proof.
  assert (H : isStreaming (streaming 1%positive) = true) by reflexivity.
  split; [ exact H | ].
  destruct (success_completion_frame false 1%positive (streaming 1%positive) H)
    as (_ & Hs & _ & _ & Hc & _).
  split; [ apply Hc; reflexivity | exact Hs ].
Defined.

(** A completion for session 1, failing with log "X" while session 2 is the
    tracked one and streams, turns the stream off and sets the error
    message: it is not ignored. *)
Lemma stale_failure_is_not_ignored :
  ~ stale_completion_ignored false 1%positive (streaming 2%positive)
      [GivesCode RcFailed; GivesText "X"].
Proof.
  unfold stale_completion_ignored. intros H.
  assert (Hne : ffmpegSessionId (streaming 2%positive) <> Some 1%positive)
    by (simpl; congruence).
  destruct (H Hne) as (_ & Hs & _). vm_compute in Hs. discriminate.
Qed.

(** What holds at the start of a stretch of a handler run alone holds at the
    end of the run, when every stretch keeps it. *)
Lemma keeps_run {A} (P : state -> Prop) (answers : list answer) :
  forall (r : res A) (st0 : state),
    keeps P st0 r -> P st0 -> P (state_of (run r answers)).
Proof.
  induction answers as [|a rest IH]; intros r st0 Hk H0.
  - destruct r; simpl in *; tauto.
  - destruct r as [st x|st e|st rq k]; simpl in *; try tauto.
    destruct Hk as [Hst Hk]. destruct (cast rq a) as [o|]; simpl; auto.
    apply IH with (st0 := st); auto.
Qed.

(** The callback for session [s] touches neither ref when the tracked
    identifier is not [s], also when other handlers run while it waits. *)
Lemma onFFmpegComplete_keeps_handles
    (seen : bool) (s : sid) (v : option sid) (c : option socket) (st : state) :
  v <> Some s ->
  keeps (fun x => ffmpegSessionId x = v /\ commandSocket x = c) st
        (onFFmpegComplete seen s st).
Proof.
  intros Hne. unfold onFFmpegComplete. open_handler. walk_keeps; try tauto.
  all: intros [Hv Hc]; subst v.
  all: match goal with
       | H : (_ =? _)%positive = true |- _ => apply Pos.eqb_eq in H
       end; congruence.
Qed.

(** Unless it fails, the completed relay leaves the flag and the message. *)
Lemma onFFmpegComplete_keeps_flags
    (seen : bool) (s : sid) (st : state) (answers : list answer) :
  (forall rest, answers <> GivesCode RcFailed :: rest) ->
  isStreaming (state_of (run (onFFmpegComplete seen s st) answers)) = isStreaming st
  /\ errorMessage (state_of (run (onFFmpegComplete seen s st) answers)) = errorMessage st.
Proof.
  intros Hnf. unfold onFFmpegComplete. open_handler.
  destruct answers as [|a rest]; [ simpl; auto | ].
  destruct a as [|e|i|rc|t]; simpl; auto; [ destruct rest; simpl; auto | ].
  destruct rc; simpl.
  - destruct (ffmpegSessionId st) as [i|]; simpl;
      try destruct (Pos.eqb i s); simpl; destruct seen; simpl;
      destruct rest; simpl; auto.
  - destruct (ffmpegSessionId st) as [i|]; simpl;
      try destruct (Pos.eqb i s); simpl;
      destruct rest; simpl; auto.
  - exfalso. eapply Hnf. reflexivity.
Qed.

(** C1, as the code has it.  A completion callback for a session other than
    the tracked one never changes the tracked identifier nor the channel
    ref, whatever the outcome; when the outcome is not Failed it leaves the
    streaming flag and the error message as they were too. *)
Theorem stale_completion_keeps_handles
    (seen : bool) (s : sid) (st : state) (answers : list answer) :
  ffmpegSessionId st <> Some s ->
  let st' := state_of (run (onFFmpegComplete seen s st) answers) in
  ffmpegSessionId st' = ffmpegSessionId st
  /\ commandSocket st' = commandSocket st
  /\ ((forall rest, answers <> GivesCode RcFailed :: rest) ->
      isStreaming st' = isStreaming st /\ errorMessage st' = errorMessage st).
Proof.
  intros Hne st'.
  assert (H : ffmpegSessionId st' = ffmpegSessionId st
              /\ commandSocket st' = commandSocket st).
  { apply (keeps_run (fun x => ffmpegSessionId x = ffmpegSessionId st
                               /\ commandSocket x = commandSocket st)
             answers _ st).
    - apply onFFmpegComplete_keeps_handles. exact Hne.
    - split; reflexivity. }
  destruct H as [Hi Hs]. split; [ exact Hi | split; [ exact Hs | ] ].
  intros Hnf. apply onFFmpegComplete_keeps_flags. exact Hnf.
Qed.

Lemma stale_completion_keeps_handles_witness :
  ffmpegSessionId (streaming 2%positive) <> Some 1%positive
  /\ ffmpegSessionId
       (state_of (run (onFFmpegComplete false 1%positive (streaming 2%positive))
                    [GivesCode RcCancel])) = Some 2%positive.
Proof.
  assert (Hne : ffmpegSessionId (streaming 2%positive) <> Some 1%positive)
    by (simpl; congruence).
  split; [ exact Hne | ].
  exact (proj1 (stale_completion_keeps_handles false 1%positive (streaming 2%positive)
                  [GivesCode RcCancel] Hne)).
Defined.

(** With the stream on, a relay that fails with the log "Connection timed
    out" produces an error message in which that log does not occur. *)
Lemma failure_message_omits_log :
  ~ failure_message_carries_log false 1%positive (streaming 1%positive)
      "Connection timed out".
Proof.
  unfold failure_message_carries_log. intros H.
  destruct (H eq_refl) as (_ & _ & Hocc). vm_compute in Hocc. discriminate.
Qed.

(** C3, as the code has it.  When the relay completes with Failed and log
    [logs] while the stream is on, the callback returns with the stream off
    and with the fixed message "FFmpeg Error! Check console logs for
    details.", the same for every log; the log itself goes to the console,
    whole, as one error line (or "No logs captured." when it is empty). *)
Theorem failed_completion_reports (seen : bool) (s : sid) (st : state) (logs : string) :
  isStreaming st = true ->
  let r := run (onFFmpegComplete seen s st) [GivesCode RcFailed; GivesText logs] in
  returned r = true
  /\ isStreaming (state_of r) = false
  /\ errorMessage (state_of r) = "FFmpeg Error! Check console logs for details."
  /\ console (state_of r)
     = (console st
        ++ [Line Log [("FFmpeg session " ++ show_sid s ++ " completed.")%string];
            Line Err ["FFmpeg process failed!"];
            Line Err ["------ FFmpeg Logs Start ------"];
            Line Err [if String.eqb logs "" then "No logs captured." else logs];
            Line Err ["------ FFmpeg Logs End --------"]])%list.
Proof.
  intros _. unfold onFFmpegComplete. open_handler.
  destruct (ffmpegSessionId st) as [i|]; simpl;
    try destruct (Pos.eqb i s); simpl;
    rewrite <- ?app_assoc; simpl; repeat split; reflexivity.
Qed.

Lemma failed_completion_reports_witness :
  isStreaming (streaming 1%positive) = true
  /\ errorMessage
       (state_of (run (onFFmpegComplete false 1%positive (streaming 1%positive))
                    [GivesCode RcFailed; GivesText "X"]))
     = "FFmpeg Error! Check console logs for details."
  /\ In (Line Err ["X"])
       (console
          (state_of (run (onFFmpegComplete false 1%positive (streaming 1%positive))
                       [GivesCode RcFailed; GivesText "X"]))).
Proof.
  assert (H : isStreaming (streaming 1%positive) = true) by reflexivity.
  split; [ exact H | ].
  destruct (failed_completion_reports false 1%positive (streaming 1%positive) "X" H)
    as (_ & _ & Hm & Hc).
  split; [ exact Hm | ].
  rewrite Hc. simpl. auto 10.
Defined.

(** ** Failures during start *)

Lemma closes_app (t u : list io) : closes (t ++ u) = (closes t ++ closes u)%list.
Proof.
  induction t as [|x t IH]; simpl; auto. destruct x; simpl; rewrite IH; reflexivity.
Qed.

Lemma launches_app (t u : list io) : launches (t ++ u) = launches t + launches u.
Proof.
  induction t as [|x t IH]; simpl; auto.
  destruct x as [| | |rq|]; simpl; try destruct rq; simpl; rewrite IH; reflexivity.
Qed.

(** Name the cells of a state that passes the guard of [start]. *)
Ltac pass_guard st Hst Htorn :=
  destruct st as [em str cs fid n ct tr co];
  destruct Htorn as [? ?]; simpl in *; subst str cs fid.

(** On the freshly mounted component, a launch that fails leaves the
    channel ref set and the socket open: no teardown has run. *)
Lemma launch_failure_keeps_channel :
  ~ launch_failure_tears_down (mounted (fun _ => None)) "spawn failed".
Proof.
  unfold launch_failure_tears_down. intros H.
  assert (Ht : torn_down (mounted (fun _ => None))) by (split; reflexivity).
  destruct (H eq_refl Ht) as (_ & _ & [Hs _] & _). vm_compute in Hs. discriminate.
Qed.

(** C2, as the code has it.  When the bind and the handshake go through and
    the launch of the relay fails with [e], [start] returns with the stream
    off, the message "Failed to start FFmpeg: e" and no relay tracked; the
    channel ref still holds the socket created by this start, and no socket
    has been closed. *)
Theorem launch_failure_reports (st : state) (e : error) :
  isStreaming st = false -> torn_down st ->
  let r := run (start st) (handshake_done ++ [Fails e]) in
  returned r = true
  /\ isStreaming (state_of r) = false
  /\ errorMessage (state_of r) = "Failed to start FFmpeg: " ++ e
  /\ ffmpegSessionId (state_of r) = None
  /\ commandSocket (state_of r) = Some (sockets st)
  /\ closes (trace (state_of r)) = closes (trace st).
Proof.
  intros Hst Htorn. pass_guard st Hst Htorn.
  repeat split; try reflexivity.
  cbv -[closes app]. rewrite !closes_app. simpl. rewrite !app_nil_r. reflexivity.
Qed.

Lemma launch_failure_reports_witness :
  isStreaming (mounted (fun _ => None)) = false
  /\ torn_down (mounted (fun _ => None))
  /\ commandSocket
       (state_of (run (start (mounted (fun _ => None))) (handshake_done ++ [Fails "spawn failed"])))
     = Some 0
  /\ errorMessage
       (state_of (run (start (mounted (fun _ => None))) (handshake_done ++ [Fails "spawn failed"])))
     = "Failed to start FFmpeg: spawn failed".
Proof.
  assert (Ht : torn_down (mounted (fun _ => None))) by (split; reflexivity).
  split; [ reflexivity | split; [ exact Ht | ] ].
  destruct (launch_failure_reports (mounted (fun _ => None)) "spawn failed" eq_refl Ht)
    as (_ & _ & Hm & _ & Hs & _).
  split; [ exact Hs | exact Hm ].
Defined.

(** C4, as the code runs.  When the bind succeeds and the first handshake
    send fails with [e], [start] returns after a full teardown (the socket
    of this start closed, both refs null, no relay launched), but the error
    message it had set is cleared again by [cleanup]: the session shows no
    error. *)
Theorem send_failure_ends_idle (st : state) (e : error) :
  isStreaming st = false -> torn_down st ->
  let r := run (start st) [Fine; Fails e] in
  returned r = true
  /\ errorMessage (state_of r) = ""
  /\ isStreaming (state_of r) = false
  /\ torn_down (state_of r)
  /\ closes (trace (state_of r)) = (closes (trace st) ++ [sockets st])%list
  /\ launches (trace (state_of r)) = launches (trace st).
Proof.
  intros Hst Htorn. pass_guard st Hst Htorn.
  unfold torn_down. cbv -[closes launches app Nat.add].
  destruct (ct n); cbv -[closes launches app Nat.add];
    rewrite !closes_app, !launches_app; simpl;
    rewrite ?app_nil_r, ?Nat.add_0_r; repeat split; reflexivity.
Qed.

Lemma send_failure_ends_idle_witness :
  isStreaming (mounted (fun _ => None)) = false
  /\ torn_down (mounted (fun _ => None))
  /\ errorMessage
       (state_of (run (start (mounted (fun _ => None))) [Fine; Fails "ENETUNREACH"])) = "".
Proof.
  assert (Ht : torn_down (mounted (fun _ => None))) by (split; reflexivity).
  split; [ reflexivity | split; [ exact Ht | ] ].
  exact (proj1 (proj2 (send_failure_ends_idle (mounted (fun _ => None)) "ENETUNREACH"
                         eq_refl Ht))).
Defined.

(** C7, as the code runs.  When the socket's error handler fires, the
    message it sets is cleared by the [cleanup] it calls right after: once
    the teardown is over the channel ref is null and no relay is tracked,
    and the session shows neither a stream nor an error. *)
Theorem socket_fault_ends_idle (st : state) (err : error) (failed : option error) :
  let r := run (onSocketError err st) [outcome failed] in
  returned r = true
  /\ errorMessage (state_of r) = ""
  /\ isStreaming (state_of r) = false
  /\ torn_down (state_of r).
Proof.
  destruct st as [em str [s|] [i|] n ct tr co], failed as [e|]; vm_compute;
    try destruct (ct s); repeat split.
Qed.

(** ** The handshake *)

Lemma alone_mono {A} (r : res A) (W : state -> Prop)
    (Q Q' : state -> A -> Prop) (E E' : state -> error -> Prop) :
  (forall st a, Q st a -> Q' st a) ->
  (forall st e, E st e -> E' st e) ->
  alone r W Q E -> alone r W Q' E'.
Proof.
  intros HQ HE. induction r as [st a|st e|st rq k IH]; simpl; auto.
  intros [Hw Hk]. split; auto.
Qed.

Lemma alone_bind {A B} (r : res A) (f : A -> M B) W Q E :
  alone r W (fun st a => alone (f a st) W Q E) E -> alone (bind_res r f) W Q E.
Proof.
  induction r as [st a|st e|st rq k IH]; simpl; auto.
  intros [Hw Hk]. split; auto.
Qed.

Lemma alone_catch {A} (r : res A) (h : error -> M A) W Q E :
  alone r W Q (fun st e => alone (h e st) W Q E) -> alone (catch_res r h) W Q E.
Proof.
  induction r as [st a|st e|st rq k IH]; simpl; auto.
  intros [Hw Hk]. split; auto.
Qed.

Lemma alone_run {A} (P : state -> Prop) (answers : list answer) :
  forall r : res A,
    alone r P (fun st _ => P st) (fun st _ => P st) -> P (state_of (run r answers)).
Proof.
  induction answers as [|a rest IH]; intros r Hr.
  - destruct r; simpl in *; tauto.
  - destruct r as [st x|st e|st rq k]; simpl in *; try tauto.
    destruct Hr as [Hst Hk]. destruct (cast rq a) as [o|]; simpl; auto.
Qed.

Lemma firstn_succ {A} (l : list A) (n : nat) (x : A) :
  nth_error l n = Some x -> firstn (S n) l = (firstn n l ++ [x])%list.
Proof.
  revert n. induction l as [|y l IH]; intros [|n] Hn; simpl in *; try discriminate.
  - inversion Hn. reflexivity.
  - rewrite <- (IH n Hn). reflexivity.
Qed.

Lemma handshake_steps (s : socket) (e : io) :
  In e (handshake s) -> handshake_step e = true.
Proof.
  unfold handshake. simpl. intros Hin.
  repeat (destruct Hin as [<-|Hin]; [ reflexivity | ]). destruct Hin.
Qed.

Section Handshake.

Variable st0 : state.

Lemma steps_same_trace (n : nat) (st st' : state) :
  trace st' = trace st -> steps_done st0 n st -> steps_done st0 n st'.
Proof.
  intros Ht [d [Hd Hf]]. exists d. rewrite Ht. auto.
Qed.

Lemma steps_other (n : nat) (e : io) (st : state) :
  handshake_step e = false -> steps_done st0 n st -> steps_done st0 n (record e st).
Proof.
  intros He [d [Hd Hf]]. exists (d ++ [e])%list. simpl. split.
  - rewrite Hd, app_assoc. reflexivity.
  - rewrite filter_app. simpl. rewrite He, app_nil_r. exact Hf.
Qed.

Lemma steps_next (n : nat) (e : io) (st : state) :
  nth_error (handshake (sockets st0)) n = Some e ->
  steps_done st0 n st -> steps_done st0 (S n) (record e st).
Proof.
  intros Hn [d [Hd Hf]]. exists (d ++ [e])%list. split.
  - simpl. rewrite Hd, app_assoc. reflexivity.
  - rewrite filter_app. cbn [filter].
    rewrite (handshake_steps (sockets st0) e) by (eapply nth_error_In; eauto).
    rewrite Hf. symmetry. apply firstn_succ. exact Hn.
Qed.

Lemma steps_print (n : nat) (l : level) (args : list string) (st : state) :
  steps_done st0 n st -> steps_done st0 n (print l args st).
Proof. apply steps_same_trace. reflexivity. Qed.

Lemma steps_setErrorMessage (n : nat) (v : string) (st : state) :
  steps_done st0 n st -> steps_done st0 n (setErrorMessage_st v st).
Proof. apply steps_same_trace. reflexivity. Qed.

Lemma steps_setIsStreaming (n : nat) (v : bool) (st : state) :
  steps_done st0 n st -> steps_done st0 n (setIsStreaming_st v st).
Proof. apply steps_same_trace. reflexivity. Qed.

Lemma steps_set_commandSocket (n : nat) (v : option socket) (st : state) :
  steps_done st0 n st -> steps_done st0 n (set_commandSocket v st).
Proof. apply steps_same_trace. reflexivity. Qed.

Lemma steps_set_ffmpegSessionId (n : nat) (v : option sid) (st : state) :
  steps_done st0 n st -> steps_done st0 n (set_ffmpegSessionId v st).
Proof. apply steps_same_trace. reflexivity. Qed.

(** Push [steps_done] through the updates of a stretch of code. *)
Ltac steps :=
  repeat match goal with
    | H : steps_done ?s0 ?n ?st |- steps_done ?s0 ?n ?st => exact H
    | |- steps_done _ _ (print _ _ _) => apply steps_print
    | |- steps_done _ _ (setErrorMessage_st _ _) => apply steps_setErrorMessage
    | |- steps_done _ _ (setIsStreaming_st _ _) => apply steps_setIsStreaming
    | |- steps_done _ _ (set_commandSocket _ _) => apply steps_set_commandSocket
    | |- steps_done _ _ (set_ffmpegSessionId _ _) => apply steps_set_ffmpegSessionId
    | |- steps_done _ ?n (record ?e ?st) => apply (steps_other n e st eq_refl)
    end.

Ltac so_far :=
  match goal with
  | H : handshake_so_far _ _ |- handshake_so_far _ _ =>
      let m := fresh "m" in destruct H as [m H]; exists m; steps
  end.

Lemma sendCommand_alone (command : string) (n : nat) (st : state) :
  commandSocket st = Some (sockets st0) ->
  steps_done st0 n st ->
  nth_error (handshake (sockets st0)) n
    = Some (Issue (send_to_drone (sockets st0) command)) ->
  nth_error (handshake (sockets st0)) (S n)
    = Some (Settle (send_to_drone (sockets st0) command) None) ->
  alone (sendCommand command st) (handshake_so_far st0)
    (fun st' _ => commandSocket st' = Some (sockets st0) /\ steps_done st0 (S (S n)) st')
    (fun st' _ => handshake_so_far st0 st').
Proof.
  intros Hs Hn H1 H2. unfold sendCommand. open_handler. rewrite Hs. simpl.
  assert (Hi : steps_done st0 (S n)
                 (record (Issue (send_to_drone (sockets st0) command))
                    (print Log ["Sending command: " ++ command] st))).
  { apply steps_next; [ exact H1 | ]. steps. }
  split; [ exists (S n); exact Hi | ].
  intros [[]|e]; simpl.
  - split; [ exact Hs | ].
    apply steps_print. apply steps_next; [ exact H2 | exact Hi ].
  - exists (S n). steps.
Qed.

Ltac walk_alone :=
  repeat first
    [ progress simpl
    | match goal with
      | |- _ /\ _ => split
      | |- forall (_ : settled _), _ => intros [?|?]
      | |- alone ?r _ _ _ =>
          match r with
          | context [match ?x with _ => _ end] => destruct x eqn:?
          end
      end ].

Lemma cleanup_alone (st : state) :
  handshake_so_far st0 st ->
  alone (cleanup st) (handshake_so_far st0)
    (fun st' _ => handshake_so_far st0 st') (fun st' _ => handshake_so_far st0 st').
Proof.
  intros Hsf. unfold cleanup. open_handler. walk_alone. all: so_far.
Qed.

Lemma startFFmpeg_alone (seen : bool) (st : state) :
  handshake_so_far st0 st ->
  alone (startFFmpeg seen st) (handshake_so_far st0)
    (fun st' _ => handshake_so_far st0 st') (fun st' _ => handshake_so_far st0 st').
Proof.
  intros Hsf. unfold startFFmpeg. open_handler. walk_alone. all: so_far.
Qed.

Lemma steps_base : steps_done st0 0 st0.
Proof.
  exists []. split; [ symmetry; apply app_nil_r | reflexivity ].
Qed.

Lemma steps_fresh_socket (n : nat) (st : state) :
  steps_done st0 n st -> steps_done st0 n (fresh_socket st).
Proof.
  intros [d [Hd Hf]]. exists (d ++ [CreateSocket (sockets st)])%list. simpl. split.
  - rewrite Hd, app_assoc. reflexivity.
  - rewrite filter_app. simpl. rewrite app_nil_r. exact Hf.
Qed.

Opaque sendCommand startFFmpeg cleanup.

(** The [catch] of [handleStartStream] keeps the handshake as it is. *)
Ltac handled :=
  let st' := fresh "st" in
  let e := fresh "e" in
  let Hsf := fresh "Hsf" in
  intros st' e Hsf; cbv beta in Hsf; simpl; apply cleanup_alone; so_far.

(** At every point of a [start] that has passed its guard, the sends and
    timers done so far are an initial part of the handshake. *)
Lemma start_alone :
  isStreaming st0 = false -> torn_down st0 ->
  alone (start st0) (handshake_so_far st0)
    (fun st' _ => handshake_so_far st0 st') (fun st' _ => handshake_so_far st0 st').
Proof.
  intros Hst [Hs Hi]. unfold start, handleStartStream.
  unfold bind, try_catch, read, update, callback, throw, setErrorMessage, setIsStreaming,
    console_log, console_error, createSocket, socket_on.
  simpl. rewrite Hst, Hs, Hi. simpl.
  assert (H0 : steps_done st0 0
                 (set_commandSocket (Some (sockets st0))
                    (fresh_socket
                       (print Log ["Creating UDP command socket..."]
                          (setIsStreaming_st false (setErrorMessage_st "" st0)))))).
  { apply steps_set_commandSocket, steps_fresh_socket. steps. apply steps_base. }
  split; [ exists 0; steps | ].
  intros [[]|e]; simpl.
  - (* bound *)
    apply alone_catch, alone_bind.
    eapply alone_mono; cycle 2.
    { apply (sendCommand_alone "command" 0);
        [ reflexivity | steps | reflexivity | reflexivity ]. }
    2: handled.
    intros st1 _ [Hs1 H2]. simpl.
    split; [ exists 3; apply steps_next; [ reflexivity | exact H2 ] | ].
    intros [[]|e]; simpl.
    + (* first timer fired *)
      apply alone_bind.
      eapply alone_mono; cycle 2.
      { apply (sendCommand_alone "streamon" 4);
          [ exact Hs1 | | reflexivity | reflexivity ].
        apply steps_next; [ reflexivity | ]. apply steps_next; [ reflexivity | exact H2 ]. }
      2: handled.
      intros st2 _ [Hs2 H6]. simpl.
      split; [ exists 7; apply steps_next; [ reflexivity | exact H6 ] | ].
      intros [[]|e]; simpl.
      * (* second timer fired *)
        eapply alone_mono; cycle 2.
        { apply startFFmpeg_alone. exists 8. apply steps_print.
          apply steps_next; [ reflexivity | ].
          apply steps_next; [ reflexivity | exact H6 ]. }
        -- intros st3 u Hsf. exact Hsf.
        -- handled.
      * apply cleanup_alone. exists 7. steps.
        apply steps_next; [ reflexivity | exact H6 ].
    + apply cleanup_alone. exists 3. steps. apply steps_next; [ reflexivity | exact H2 ].
  - (* bind failed *)
    apply cleanup_alone. exists 0. steps.
Qed.

Transparent sendCommand startFFmpeg cleanup.

End Handshake.

(** C6.  A [start] that passes its guard and whose bind and sends go through
    creates one socket, binds it, and then does exactly this, in this order:
    send "command", wait for the send to complete, set a 500 ms timer, wait
    for it, send "streamon", wait for the send, set a 500 ms timer, wait for
    it; only then does it ask for the relay.  Whatever the answers, the
    sends and timers it has started and completed form an initial part of
    that sequence, so "streamon" is never handed to the socket before the
    send of "command" has completed and its timer has fired. *)
Theorem handshake_in_order (st : state) :
  isStreaming st = false -> torn_down st ->
  let s := sockets st in
  trace (state_of (run (start st) handshake_done))
  = (trace st
     ++ [CreateSocket s; SocketOn s "error"; SocketOn s "message";
         Issue (SocketBind s LOCAL_COMMAND_PORT_BIND);
         Settle (SocketBind s LOCAL_COMMAND_PORT_BIND) None]
     ++ handshake s
     ++ [Issue (ExecuteAsync ffmpegCommand false)])%list
  /\ waits_on (run (start st) handshake_done) = Some (ExecuteAsync ffmpegCommand false)
  /\ forall answers, exists n d,
       trace (state_of (run (start st) answers)) = (trace st ++ d)%list
       /\ filter handshake_step d = firstn n (handshake s).
Proof.
  intros Hst Htorn. split; [ | split ].
  - pass_guard st Hst Htorn. cbv -[app]. rewrite <- !app_assoc. reflexivity.
  - pass_guard st Hst Htorn. reflexivity.
  - intros answers.
    exact (alone_run (handshake_so_far st) answers _ (start_alone st Hst Htorn)).
Qed.

Lemma handshake_in_order_witness :
  isStreaming (mounted (fun _ => None)) = false
  /\ torn_down (mounted (fun _ => None))
  /\ filter handshake_step
       (trace (state_of (run (start (mounted (fun _ => None))) handshake_done)))
     = handshake 0.
Proof.
  assert (Ht : torn_down (mounted (fun _ => None))) by (split; reflexivity).
  split; [ reflexivity | split; [ exact Ht | ] ].
  rewrite (proj1 (handshake_in_order (mounted (fun _ => None)) eq_refl Ht)).
  reflexivity.
Defined.

(** * Further properties *)

Lemma datagrams_app (t u : list io) :
  datagrams (t ++ u) = (datagrams t ++ datagrams u)%list.
Proof.
  induction t as [|x t IH]; simpl; auto.
  destruct x as [| | |rq|]; simpl; try destruct rq; simpl; rewrite IH; reflexivity.
Qed.

Lemma cancels_app (t u : list io) :
  cancels (t ++ u) = (cancels t ++ cancels u)%list.
Proof.
  induction t as [|x t IH]; simpl; auto.
  destruct x as [| | |rq|]; simpl; try destruct rq; simpl; rewrite IH; reflexivity.
Qed.

(** Evaluate a run from a state whose cells are named, keeping the readers
    of the trace folded, then push the readers through the appended calls. *)
Ltac evaluate :=
  cbv -[closes launches datagrams cancels app Nat.add In];
  rewrite ?closes_app, ?launches_app, ?datagrams_app, ?cancels_app; simpl;
  rewrite ?app_nil_r, ?Nat.add_0_r, <- ?app_assoc; simpl.

(** ** Start, from the button to the stream *)

(** X1.  A [start] that passes its guard and meets no failure returns with
    the stream on, no error message, the new socket in the channel ref and
    the identifier the session reported in the relay ref; it has sent the two
    commands, launched one relay and closed nothing, and the screen then
    shows the player on http://127.0.0.1:11112, not paused, with the
    Disconnect button. *)
Theorem start_streams (st : state) (session i : sid) :
  isStreaming st = false -> torn_down st ->
  let r := run (start st) (handshake_done ++ [GivesId session; GivesId i]) in
  returned r = true
  /\ isStreaming (state_of r) = true
  /\ errorMessage (state_of r) = ""
  /\ commandSocket (state_of r) = Some (sockets st)
  /\ ffmpegSessionId (state_of r) = Some i
  /\ datagrams (trace (state_of r)) = (datagrams (trace st) ++ ["command"; "streamon"])%list
  /\ launches (trace (state_of r)) = launches (trace st) + 1
  /\ closes (trace (state_of r)) = closes (trace st)
  /\ render (state_of r)
     = Screen None (Video "http://127.0.0.1:11112" false) "Disconnect" HandleDisconnectPress.
Proof.
  intros Hst Htorn. pass_guard st Hst Htorn. evaluate. repeat split; reflexivity.
Qed.

Lemma start_streams_witness :
  isStreaming (mounted (fun _ => None)) = false
  /\ torn_down (mounted (fun _ => None))
  /\ session
       (state_of (run (start (mounted (fun _ => None)))
                    (handshake_done ++ [GivesId 7%positive; GivesId 7%positive])))
     = ("", true, Some 0, Some 7%positive).
Proof.
  assert (Ht : torn_down (mounted (fun _ => None))) by (split; reflexivity).
  split; [ reflexivity | split; [ exact Ht | ] ].
  destruct (start_streams (mounted (fun _ => None)) 7%positive 7%positive eq_refl Ht)
    as (_ & H1 & H2 & H3 & H4 & _).
  unfold session. rewrite H1, H2, H3, H4. reflexivity.
Defined.

(** X2.  When the bind fails, or when the send of "streamon" fails, [start]
    returns after closing its socket, with both refs null, the stream off
    and no relay launched; after a failed bind no datagram has been handed
    to the socket.  The error is on the console only: the message set for
    the screen is cleared by the teardown. *)
Theorem early_failure_tears_down (st : state) (e : error) :
  isStreaming st = false -> torn_down st ->
  let bind_failed := run (start st) [Fails e] in
  let send_failed := run (start st) [Fine; Fine; Fine; Fails e] in
  (returned bind_failed = true
   /\ idle (state_of bind_failed) /\ torn_down (state_of bind_failed)
   /\ closes (trace (state_of bind_failed)) = (closes (trace st) ++ [sockets st])%list
   /\ launches (trace (state_of bind_failed)) = launches (trace st)
   /\ datagrams (trace (state_of bind_failed)) = datagrams (trace st)
   /\ In (Line Err ["Initialization failed:";
                    "Failed to bind socket to port 9000: " ++ e])
         (console (state_of bind_failed)))
  /\ (returned send_failed = true
      /\ idle (state_of send_failed) /\ torn_down (state_of send_failed)
      /\ closes (trace (state_of send_failed)) = (closes (trace st) ++ [sockets st])%list
      /\ launches (trace (state_of send_failed)) = launches (trace st)
      /\ datagrams (trace (state_of send_failed))
         = (datagrams (trace st) ++ ["command"; "streamon"])%list
      /\ In (Line Err ["Initialization failed:"; e]) (console (state_of send_failed))).
Proof.
  intros Hst Htorn. pass_guard st Hst Htorn. unfold idle, torn_down.
  split.
  - cbv -[closes launches datagrams cancels app Nat.add In].
    destruct (ct n); evaluate; repeat split; try reflexivity;
      apply in_or_app; right; simpl; auto 10.
  - cbv -[closes launches datagrams cancels app Nat.add In].
    destruct (ct n); evaluate; repeat split; try reflexivity;
      apply in_or_app; right; simpl; auto 20.
Qed.

Lemma early_failure_tears_down_witness :
  isStreaming (mounted (fun _ => None)) = false
  /\ torn_down (mounted (fun _ => None))
  /\ closes (trace (state_of (run (start (mounted (fun _ => None))) [Fails "EADDRINUSE"])))
     = [0].
Proof.
  assert (Ht : torn_down (mounted (fun _ => None))) by (split; reflexivity).
  split; [ reflexivity | split; [ exact Ht | ] ].
  destruct (early_failure_tears_down (mounted (fun _ => None)) "EADDRINUSE" eq_refl Ht)
    as ((_ & _ & _ & Hc & _) & _).
  exact Hc.
Defined.

(** X3.  When [startFFmpeg] finds a relay session still tracked, the first
    thing it asks for is the cancellation of that session, and it launches
    only once the cancellation has gone through.  If the cancellation
    fails, the failure leaves [startFFmpeg] as an exception: nothing is
    launched and the old identifier stays in the ref. *)
Theorem startFFmpeg_cancels_first (seen : bool) (st : state) (i session j : sid) (e : error) :
  ffmpegSessionId st = Some i ->
  let cancelled := run (startFFmpeg seen st) [Fine; GivesId session; GivesId j] in
  let refused := run (startFFmpeg seen st) [Fails e] in
  waits_on (startFFmpeg seen st) = Some (FFmpegCancel i)
  /\ launches (trace (state_of (startFFmpeg seen st))) = launches (trace st)
  /\ (returned cancelled = true
      /\ trace (state_of cancelled)
         = (trace st
            ++ [Issue (FFmpegCancel i); Settle (FFmpegCancel i) None;
                Issue (ExecuteAsync ffmpegCommand seen);
                Settle (ExecuteAsync ffmpegCommand seen) None;
                Issue (GetSessionId session); Settle (GetSessionId session) None])%list
      /\ ffmpegSessionId (state_of cancelled) = Some j
      /\ isStreaming (state_of cancelled) = true)
  /\ (thrown refused = Some e
      /\ launches (trace (state_of refused)) = launches (trace st)
      /\ ffmpegSessionId (state_of refused) = Some i
      /\ isStreaming (state_of refused) = isStreaming st
      /\ errorMessage (state_of refused) = "").
Proof.
  intros Hi. destruct st as [em str cs fid n ct tr co]. simpl in Hi. subst fid.
  evaluate. repeat split; reflexivity.
Qed.

Lemma startFFmpeg_cancels_first_witness :
  ffmpegSessionId (streaming 1%positive) = Some 1%positive
  /\ waits_on (startFFmpeg false (streaming 1%positive)) = Some (FFmpegCancel 1%positive)
  /\ thrown (run (startFFmpeg false (streaming 1%positive)) [Fails "gone"]) = Some "gone".
Proof.
  split; [ reflexivity | ].
  destruct (startFFmpeg_cancels_first false (streaming 1%positive) 1%positive
              2%positive 2%positive "gone" eq_refl) as (Hw & _ & _ & Ht & _).
  split; [ exact Hw | exact Ht ].
Defined.

(** ** The screen and the handlers *)

(** X4.  The Start button is on the screen exactly when [start] would pass
    its guard and go on to bind a new socket; the Disconnect button is on
    the screen exactly when [start] would be refused.  So the button that is
    shown is never a Start that does nothing. *)
Theorem start_button_matches_guard (st : state) :
  (button_onPress (render st) = HandleStartStream
   <-> waits_on (start st) = Some (SocketBind (sockets st) LOCAL_COMMAND_PORT_BIND))
  /\ (button_onPress (render st) = HandleDisconnectPress
      <-> returned (start st) = true)
  /\ (button_label (render st) = "Start Stream"
      <-> button_onPress (render st) = HandleStartStream).
Proof.
  destruct st as [em [|] [s|] [i|] n ct tr co]; cbv;
    repeat split; intros H; try reflexivity; discriminate.
Qed.

(** X5.  Disconnect sets the cells before it nulls the refs.  When a relay
    is tracked, [stop] is suspended on the cancellation with the stream
    flag off and the message cleared but both refs as they were: a render
    of that state shows the placeholder and still the Disconnect button.
    What runs once the cancellation is answered nulls the refs and sets no
    cell, so the cells of the final state are those of the suspended one;
    a render of the final state would show the Start button. *)
Theorem stop_nulls_refs_after_cells (st : state) (i : sid) (failed : option error) :
  ffmpegSessionId st = Some i ->
  let waiting := state_of (stop st) in
  let final := state_of (run (stop st) [outcome failed]) in
  waits_on (stop st) = Some (FFmpegCancel i)
  /\ isStreaming waiting = false /\ errorMessage waiting = ""
  /\ commandSocket waiting = commandSocket st /\ ffmpegSessionId waiting = Some i
  /\ render waiting
     = Screen None (Placeholder "Stream Paused / Disconnected")
         "Disconnect" HandleDisconnectPress
  /\ isStreaming final = false /\ errorMessage final = ""
  /\ torn_down final
  /\ render final
     = Screen None (Placeholder "Stream Paused / Disconnected")
         "Start Stream" HandleStartStream.
Proof.
  intros Hi. destruct st as [em str cs fid n ct tr co]. simpl in Hi. subst fid.
  unfold torn_down.
  destruct cs as [s|], failed as [e|]; vm_compute; try destruct (ct s);
    repeat split; reflexivity.
Qed.

Lemma stop_nulls_refs_after_cells_witness :
  ffmpegSessionId (streaming 1%positive) = Some 1%positive
  /\ button_label (render (state_of (stop (streaming 1%positive)))) = "Disconnect"
  /\ button_label (render (state_of (run (stop (streaming 1%positive)) [Fine])))
     = "Start Stream".
Proof.
  split; [ reflexivity | ].
  destruct (stop_nulls_refs_after_cells (streaming 1%positive) 1%positive None eq_refl)
    as (_ & _ & _ & _ & _ & Hw & _ & _ & _ & Hf).
  simpl outcome in Hf. rewrite Hw, Hf. split; reflexivity.
Defined.

(** X6.  A player error never stops the stream and releases nothing: only
    the error message changes, and it is never empty.  The text reported is
    the description when there is a non-empty one, else the failure reason,
    else the message, and "Unknown video player error" when the player gave
    none of them (or only empty ones). *)
Theorem onVideoError_reports (err : videoError) (st : state) :
  let r := onVideoError err st in
  returned r = true
  /\ errorMessage (state_of r) <> ""
  /\ isStreaming (state_of r) = isStreaming st
  /\ commandSocket (state_of r) = commandSocket st
  /\ ffmpegSessionId (state_of r) = ffmpegSessionId st
  /\ trace (state_of r) = trace st
  /\ (forall d, optional (inner err) localizedDescription = Some d -> d <> "" ->
        errorMessage (state_of r) = "Video Player Error: " ++ d ++ ". Check console.")
  /\ (forall f, falsy (optional (inner err) localizedDescription) ->
        optional (inner err) localizedFailureReason = Some f -> f <> "" ->
        errorMessage (state_of r) = "Video Player Error: " ++ f ++ ". Check console.")
  /\ (forall m, falsy (optional (inner err) localizedDescription) ->
        falsy (optional (inner err) localizedFailureReason) ->
        optional (inner err) message = Some m -> m <> "" ->
        errorMessage (state_of r) = "Video Player Error: " ++ m ++ ". Check console.")
  /\ (falsy (optional (inner err) localizedDescription) ->
      falsy (optional (inner err) localizedFailureReason) ->
      falsy (optional (inner err) message) ->
      errorMessage (state_of r)
      = "Video Player Error: Unknown video player error. Check console.").
Proof.
  destruct err as [[[[d|] [f|] [m|]]|] js]; unfold onVideoError; open_handler;
    repeat split; try discriminate; intros; unfold falsy, or_text, or_else, optional in *;
    simpl in *;
    repeat match goal with
      | H : _ \/ _ |- _ => destruct H
      | H : Some _ = None |- _ => discriminate H
      | H : None = Some _ |- _ => discriminate H
      | H : Some _ = Some _ |- _ => inversion H; subst; clear H
      | H : context [String.eqb ?x ""] |- _ => destruct (String.eqb_spec x "")
      | |- context [String.eqb ?x ""] => destruct (String.eqb_spec x "")
      end; subst; simpl; try congruence; try reflexivity.
Qed.

Lemma onVideoError_reports_witness :
  let err := VideoError (Some (PlayerError (Some "") (Some "decoder died") None)) "{}" in
  falsy (optional (inner err) localizedDescription)
  /\ errorMessage (state_of (onVideoError err (streaming 1%positive)))
     = "Video Player Error: decoder died. Check console.".
Proof.
  intros err.
  assert (H1 : falsy (optional (inner err) localizedDescription))
    by (right; reflexivity).
  split; [ exact H1 | ].
  destruct (onVideoError_reports err (streaming 1%positive))
    as (_ & _ & _ & _ & _ & _ & _ & Hf & _).
  apply (Hf "decoder died" H1 eq_refl). discriminate.
Defined.

(** X7.  When the player loads the stream after it had reported an error,
    [onVideoLoad] (rendered with that error on the screen) clears the
    message and nothing else: the session is as it was before the error. *)
Theorem load_after_error_clears (err : videoError) (st : state) :
  errorMessage st = "" ->
  let st1 := state_of (onVideoError err st) in
  let r := onVideoLoad (errorMessage st1) st1 in
  returned r = true
  /\ session (state_of r) = session st
  /\ trace (state_of r) = trace st
  /\ sockets (state_of r) = sockets st.
Proof.
  intros He. destruct st as [em str cs fid n ct tr co]. simpl in He. subst em.
  unfold onVideoLoad, onVideoError. open_handler. repeat split; reflexivity.
Qed.

Lemma load_after_error_clears_witness :
  errorMessage (streaming 1%positive) = ""
  /\ session
       (state_of
          (onVideoLoad
             (errorMessage (state_of (onVideoError (VideoError None "{}") (streaming 1%positive))))
             (state_of (onVideoError (VideoError None "{}") (streaming 1%positive)))))
     = session (streaming 1%positive).
Proof.
  split; [ reflexivity | ].
  exact (proj1 (proj2 (load_after_error_clears (VideoError None "{}")
                         (streaming 1%positive) eq_refl))).
Defined.

(** X8.  A relay that fails releases nothing: after the completion callback
    the socket is still in the channel ref, nothing has been closed or
    cancelled, the screen shows the error with the placeholder and the
    Disconnect button, and [start] is refused until Disconnect is pressed. *)
Theorem failed_relay_keeps_channel
    (seen : bool) (s : sid) (st : state) (c : socket) (logs : string) :
  commandSocket st = Some c ->
  let st' := state_of (run (onFFmpegComplete seen s st)
                           [GivesCode RcFailed; GivesText logs]) in
  commandSocket st' = Some c
  /\ closes (trace st') = closes (trace st)
  /\ cancels (trace st') = cancels (trace st)
  /\ render st'
     = Screen (Some "FFmpeg Error! Check console logs for details.")
         (Placeholder "Stream Paused / Disconnected") "Disconnect" HandleDisconnectPress
  /\ returned (start st') = true
  /\ trace (state_of (start st')) = trace st'.
Proof.
  intros Hc. destruct st as [em str cs fid n ct tr co]. simpl in Hc. subst cs.
  destruct fid as [i|].
  - cbv -[closes launches datagrams cancels app Nat.add In Pos.eqb].
    destruct (Pos.eqb i s); evaluate; repeat split; reflexivity.
  - evaluate. repeat split; reflexivity.
Qed.

Lemma failed_relay_keeps_channel_witness :
  commandSocket (streaming 1%positive) = Some 0
  /\ returned
       (start (state_of (run (onFFmpegComplete false 1%positive (streaming 1%positive))
                           [GivesCode RcFailed; GivesText "X"]))) = true.
Proof.
  split; [ reflexivity | ].
  destruct (failed_relay_keeps_channel false 1%positive (streaming 1%positive) 0 "X" eq_refl)
    as (_ & _ & _ & _ & Hr & _).
  exact Hr.
Defined.
(** ** Stop against what is in flight *)

Lemma execs_step (c : config) (ev : event) (evs : list event) (c' : config) :
  exec c ev = c' -> execs c (ev :: evs) = execs c' evs.
Proof. intros <-. reflexivity. Qed.

Lemma execs_from (c c' : config) (evs : list event) :
  c = c' -> execs c evs = execs c' evs.
Proof. intros <-. reflexivity. Qed.

(** Run the event loop one event at a time.  After every event the state and
    the suspended tasks are normalised; what [close] throws and whether two
    identifiers are the same is decided when the run comes to depend on it. *)
Ltac spine l :=
  let l' := eval lazy head beta iota delta [app remove_nth] in l in
  lazymatch l' with
  | ?x :: ?r => let r' := spine r in constr:(x :: r')
  | _ => l'
  end.

Ltac settle_config c :=
  let t := eval cbv -[app show_sid show_N String.append Pos.eqb] in c in
  lazymatch t with
  | Config ?st ?ps => let ps' := spine ps in constr:(Config st ps')
  | _ => t
  end.

Ltac run_loop :=
  let final := fresh "final" in
  let Hrun := fresh "Hrun" in
  match goal with
  | |- context [execs ?c ?evs] => remember (execs c evs) as final eqn:Hrun
  end;
  repeat first
    [ match type of Hrun with
      | _ = execs (Config ?st ?ps) (?ev :: ?evs) =>
          let t := settle_config (exec (Config st ps) ev) in
          let E := fresh "E" in
          assert (E : exec (Config st ps) ev = t) by (vm_cast_no_check (eq_refl t));
          apply (fun H => eq_trans H (execs_step (Config st ps) ev evs t E)) in Hrun;
          clear E
      end
    | match type of Hrun with
      | _ = execs ?c ?evs =>
          lazymatch c with
          | Config _ _ => fail
          | _ =>
              match c with
              | context [Pos.eqb ?i ?i] => rewrite (Pos.eqb_refl i) in Hrun
              | context [match ?f ?s with Some _ => _ | None => _ end] =>
                  is_var f; destruct (f s)
              end
          end
      end
    | match type of Hrun with
      | _ = execs ?c ?evs =>
          lazymatch c with
          | Config _ _ => fail
          | _ =>
              let t := settle_config c in
              let E := fresh "E" in
              assert (E : c = t) by (vm_cast_no_check (eq_refl t));
              apply (fun H => eq_trans H (execs_from c t evs E)) in Hrun;
              clear E
          end
      end ];
  match type of Hrun with
  | _ = execs ?c [] => change (final = c) in Hrun
  end;
  rewrite <- ?app_assoc in Hrun; cbn [app] in Hrun;
  subst final.

Ltac read_off :=
  cbv [now pending errorMessage isStreaming commandSocket ffmpegSessionId sockets trace
       console];
  rewrite ?closes_app, ?launches_app, ?datagrams_app, ?cancels_app;
  cbv beta iota delta [closes launches datagrams cancels];
  rewrite ?app_nil_r, ?Nat.add_0_r, <- ?app_assoc, <- ?Nat.add_assoc; cbn [app Nat.add].

(** X9.  Pressing Disconnect while the relay streams asks for the
    cancellation of the tracked session and closes the socket; the
    completion callback of the cancelled relay then changes nothing more.
    Whether the callback runs after the cancellation has been answered or
    before it, the session ends idle with both refs null and nothing left
    suspended. *)
Theorem stop_then_cancelled
    (st : state) (s : socket) (i : sid) (seen : bool) (failed : option error) :
  commandSocket st = Some s -> ffmpegSessionId st = Some i ->
  let after :=
    execs (Config st [])
      [PressStop; Resume 0 (outcome failed);
       RelayCompleted seen i; Resume 0 (GivesCode RcCancel)] in
  let before :=
    execs (Config st [])
      [PressStop; RelayCompleted seen i; Resume 1 (GivesCode RcCancel);
       Resume 0 (outcome failed)] in
  (pending after = [] /\ idle (now after) /\ torn_down (now after)
   /\ cancels (trace (now after)) = (cancels (trace st) ++ [i])%list
   /\ closes (trace (now after)) = (closes (trace st) ++ [s])%list)
  /\ (pending before = [] /\ idle (now before) /\ torn_down (now before)
      /\ cancels (trace (now before)) = (cancels (trace st) ++ [i])%list
      /\ closes (trace (now before)) = (closes (trace st) ++ [s])%list).
Proof.
  intros Hs Hi. destruct st as [em str cs fid n ct tr co]. simpl in Hs, Hi. subst cs fid.
  unfold idle, torn_down. cbv zeta. destruct failed as [e|]; split.
  all: run_loop.
  all: read_off.
  all: repeat split.
  all: reflexivity.
Qed.

Lemma stop_then_cancelled_witness :
  commandSocket (streaming 1%positive) = Some 0
  /\ ffmpegSessionId (streaming 1%positive) = Some 1%positive
  /\ session
       (now (execs (Config (streaming 1%positive) [])
               [PressStop; Resume 0 Fine; RelayCompleted false 1%positive;
                Resume 0 (GivesCode RcCancel)]))
     = ("", false, None, None).
Proof.
  split; [ reflexivity | split; [ reflexivity | ] ].
  destruct (stop_then_cancelled (streaming 1%positive) 0 1%positive false None
              eq_refl eq_refl) as ((_ & [H1 H2] & [H3 H4] & _) & _).
  unfold session. simpl outcome in *. rewrite H1, H2, H3, H4. reflexivity.
Defined.

(** X10.  Pressing Disconnect while [start] waits out the delay after
    "command" closes the socket at once; when the delay is over the start
    finds the channel ref null, gives up with "Socket not initialized" and
    tears down: "streamon" is never sent, no relay is launched, and the
    session ends idle with both refs null and nothing left suspended. *)
Theorem stop_during_first_delay (st : state) :
  isStreaming st = false -> torn_down st ->
  let c := execs (Config st [])
             [PressStart false; Resume 0 Fine; Resume 0 Fine; PressStop; Resume 0 Fine] in
  pending c = [] /\ idle (now c) /\ torn_down (now c)
  /\ datagrams (trace (now c)) = (datagrams (trace st) ++ ["command"])%list
  /\ launches (trace (now c)) = launches (trace st)
  /\ closes (trace (now c)) = (closes (trace st) ++ [sockets st])%list
  /\ In (Line Err ["Initialization failed:"; "Socket not initialized"]) (console (now c)).
Proof.
  intros Hst [Hs Hi]. destruct st as [em str cs fid n ct tr co].
  simpl in Hst, Hs, Hi. subst str cs fid. unfold idle, torn_down. cbv zeta.
  run_loop.
  all: read_off.
  all: repeat split.
  all: try reflexivity.
  all: apply in_or_app; right; cbn [In]; repeat first [ left; reflexivity | right ].
Qed.

Lemma stop_during_first_delay_witness :
  isStreaming (mounted (fun _ => None)) = false
  /\ torn_down (mounted (fun _ => None))
  /\ datagrams
       (trace (now (execs (Config (mounted (fun _ => None)) [])
                      [PressStart false; Resume 0 Fine; Resume 0 Fine; PressStop;
                       Resume 0 Fine])))
     = ["command"].
Proof.
  assert (Ht : torn_down (mounted (fun _ => None))) by (split; reflexivity).
  split; [ reflexivity | split; [ exact Ht | ] ].
  destruct (stop_during_first_delay (mounted (fun _ => None)) eq_refl Ht)
    as (_ & _ & _ & Hd & _).
  exact Hd.
Defined.

(** X11.  Pressing Disconnect while [start] waits out the delay after
    "streamon" does not stop the start: the socket is closed, but when the
    delay is over the relay is launched all the same, and the session ends
    with the stream on, the relay tracked and no command channel. *)
Theorem stop_during_second_delay (st : state) (relay i : sid) :
  isStreaming st = false -> torn_down st ->
  let c := execs (Config st [])
             [PressStart false; Resume 0 Fine; Resume 0 Fine; Resume 0 Fine; Resume 0 Fine;
              PressStop;
              Resume 0 Fine; Resume 0 (GivesId relay); Resume 0 (GivesId i)] in
  pending c = []
  /\ isStreaming (now c) = true
  /\ ffmpegSessionId (now c) = Some i
  /\ commandSocket (now c) = None
  /\ closes (trace (now c)) = (closes (trace st) ++ [sockets st])%list
  /\ launches (trace (now c)) = launches (trace st) + 1
  /\ cancels (trace (now c)) = cancels (trace st).
Proof.
  intros Hst [Hs Hi]. destruct st as [em str cs fid n ct tr co].
  simpl in Hst, Hs, Hi. subst str cs fid. cbv zeta.
  run_loop.
  all: read_off.
  all: repeat split.
  all: reflexivity.
Qed.

Lemma stop_during_second_delay_witness :
  isStreaming (mounted (fun _ => None)) = false
  /\ torn_down (mounted (fun _ => None))
  /\ ffmpegSessionId
       (now (execs (Config (mounted (fun _ => None)) [])
               [PressStart false; Resume 0 Fine; Resume 0 Fine; Resume 0 Fine;
                Resume 0 Fine; PressStop; Resume 0 Fine;
                Resume 0 (GivesId 5%positive); Resume 0 (GivesId 5%positive)]))
     = Some 5%positive.
Proof.
  assert (Ht : torn_down (mounted (fun _ => None))) by (split; reflexivity).
  split; [ reflexivity | split; [ exact Ht | ] ].
  destruct (stop_during_second_delay (mounted (fun _ => None)) 5%positive 5%positive
              eq_refl Ht) as (_ & _ & Hi & _).
  exact Hi.
Defined.

(** X12.  A relay can outlive every Disconnect.  A first [start] is
    overtaken by Disconnect during its second delay and launches its relay
    all the same; a second [start], begun in between, is still in its
    handshake when Disconnect is pressed again.  That second Disconnect asks
    for the cancellation of the first relay and waits; the second [start]
    meanwhile cancels the same relay once more, launches its own and tracks
    it; then the pending cancellation is answered and the [finally] of
    [cleanup] nulls the session ref, which by now holds the second relay.
    The session ends idle with both refs null and nothing suspended, two
    relays were launched, the first one was cancelled twice and the second
    one never, and a further Disconnect cancels nothing. *)
Theorem relay_outlives_stop (st : state) (h1 r1 h2 r2 : sid) :
  isStreaming st = false -> torn_down st ->
  let c := execs (Config st [])
             [PressStart false; Resume 0 Fine; Resume 0 Fine; Resume 0 Fine; Resume 0 Fine;
              PressStop;
              PressStart false;
              Resume 0 Fine; Resume 1 (GivesId h1); Resume 1 (GivesId r1);
              PressStop;
              Resume 0 Fine; Resume 1 Fine; Resume 1 Fine; Resume 1 Fine; Resume 1 Fine;
              Resume 1 Fine; Resume 1 (GivesId h2); Resume 1 (GivesId r2);
              Resume 0 Fine;
              PressStop] in
  pending c = [] /\ idle (now c) /\ torn_down (now c)
  /\ launches (trace (now c)) = launches (trace st) + 2
  /\ cancels (trace (now c)) = (cancels (trace st) ++ [r1; r1])%list
  /\ closes (trace (now c)) = (closes (trace st) ++ [sockets st; S (sockets st)])%list.
Proof.
  intros Hst [Hs Hi]. destruct st as [em str cs fid n ct tr co].
  simpl in Hst, Hs, Hi. subst str cs fid. unfold idle, torn_down. cbv zeta.
  run_loop.
  all: read_off.
  all: repeat split.
  all: reflexivity.
Qed.

Lemma relay_outlives_stop_witness :
  isStreaming (mounted (fun _ => None)) = false
  /\ torn_down (mounted (fun _ => None))
  /\ cancels
       (trace (now (execs (Config (mounted (fun _ => None)) [])
             [PressStart false; Resume 0 Fine; Resume 0 Fine; Resume 0 Fine; Resume 0 Fine;
              PressStop;
              PressStart false;
              Resume 0 Fine; Resume 1 (GivesId 1%positive); Resume 1 (GivesId 1%positive);
              PressStop;
              Resume 0 Fine; Resume 1 Fine; Resume 1 Fine; Resume 1 Fine; Resume 1 Fine;
              Resume 1 Fine; Resume 1 (GivesId 2%positive); Resume 1 (GivesId 2%positive);
              Resume 0 Fine;
              PressStop])))
     = [1%positive; 1%positive].
Proof.
  assert (Ht : torn_down (mounted (fun _ => None))) by (split; reflexivity).
  split; [ reflexivity | split; [ exact Ht | ] ].
  destruct (relay_outlives_stop (mounted (fun _ => None)) 1%positive 1%positive
              2%positive 2%positive eq_refl Ht) as (_ & _ & _ & _ & Hc & _).
  exact Hc.
Defined.

(** X13.  A [start] that Disconnect has overtaken goes on with whatever
    socket it finds in the channel ref.  Disconnect is pressed while a first
    [start] waits out the delay after "command", and Start is pressed
    again; when the delay of the first [start] is over, it sends its
    "streamon" on the socket the second [start] has just created, before
    that socket is bound and before any "command" has been sent on it. *)
Theorem overtaken_start_sends_on_new_socket (st : state) :
  isStreaming st = false -> torn_down st ->
  let n := sockets st in
  let c := execs (Config st [])
             [PressStart false; Resume 0 Fine; Resume 0 Fine; PressStop;
              PressStart false; Resume 0 Fine] in
  commandSocket (now c) = Some (S n)
  /\ map awaiting (pending c)
     = [SocketBind (S n) LOCAL_COMMAND_PORT_BIND; send_to_drone (S n) "streamon"]
  /\ trace (now c)
     = (trace st
        ++ [CreateSocket n; SocketOn n "error"; SocketOn n "message";
            Issue (SocketBind n LOCAL_COMMAND_PORT_BIND);
            Settle (SocketBind n LOCAL_COMMAND_PORT_BIND) None;
            Issue (send_to_drone n "command"); Settle (send_to_drone n "command") None;
            Issue (SetTimeout 500);
            SocketClose n;
            CreateSocket (S n); SocketOn (S n) "error"; SocketOn (S n) "message";
            Issue (SocketBind (S n) LOCAL_COMMAND_PORT_BIND);
            Settle (SetTimeout 500) None;
            Issue (send_to_drone (S n) "streamon")])%list.
Proof.
  intros Hst [Hs Hi]. destruct st as [em str cs fid n ct tr co].
  simpl in Hst, Hs, Hi. subst str cs fid. cbv zeta.
  run_loop.
  all: cbv [now pending commandSocket sockets trace map awaiting].
  all: repeat split.
  all: reflexivity.
Qed.

Lemma overtaken_start_sends_on_new_socket_witness :
  isStreaming (mounted (fun _ => None)) = false
  /\ torn_down (mounted (fun _ => None))
  /\ map awaiting
       (pending (execs (Config (mounted (fun _ => None)) [])
                   [PressStart false; Resume 0 Fine; Resume 0 Fine; PressStop;
                    PressStart false; Resume 0 Fine]))
     = [SocketBind 1 LOCAL_COMMAND_PORT_BIND; send_to_drone 1 "streamon"].
Proof.
  assert (Ht : torn_down (mounted (fun _ => None))) by (split; reflexivity).
  split; [ reflexivity | split; [ exact Ht | ] ].
  destruct (overtaken_start_sends_on_new_socket (mounted (fun _ => None)) eq_refl Ht)
    as (_ & Hp & _).
  exact Hp.
Defined.

(** ** The command channel *)

Lemma never_used_snoc (t : list io) (e : io) :
  never_used_after_close t ->
  (forall s, uses e = Some s -> ~ In s (closes t)) ->
  never_used_after_close (t ++ [e]).
Proof.
  intros Ht He t1 e' t2 s Heq Hu.
  destruct (exists_last (l := e' :: t2)) as [l [x Hl]]; [ discriminate | ].
  destruct l as [|y l].
  - destruct t2; [ | destruct t2; discriminate ].
    simpl in Hl. inversion Hl; subst x.
    apply app_inj_tail in Heq. destruct Heq as [-> ->]. auto.
  - simpl in Hl. inversion Hl; subst y. rewrite H1 in Heq.
    change (t1 ++ e' :: l ++ [x])%list with (t1 ++ (e' :: l) ++ [x])%list in Heq.
    rewrite app_assoc in Heq. apply app_inj_tail in Heq. destruct Heq as [Heq _].
    eapply Ht; eauto.
Qed.

Lemma closes_snoc_other (t : list io) (e : io) :
  (forall s, e <> SocketClose s) -> closes (t ++ [e]) = closes t.
Proof.
  intros He. rewrite closes_app. destruct e; simpl; try apply app_nil_r.
  destruct (He s eq_refl).
Qed.

(** An event that is no call on a socket. *)
Lemma channel_inv_skip (cs : option socket) (n : nat) (t : list io) (e : io) :
  uses e = None -> channel_inv cs n t -> channel_inv cs n (t ++ [e]).
Proof.
  intros He (Hu & Hc & Ha & Hr).
  assert (Hcl : closes (t ++ [e]) = closes t).
  { apply closes_snoc_other. intros s ->. discriminate. }
  unfold channel_inv. rewrite Hcl. repeat split; auto.
  - apply never_used_snoc; auto. intros s Hs. congruence.
  - apply Hr; assumption.
  - apply Hr; assumption.
Qed.

(** A call, other than [close], on the socket in the ref. *)
Lemma channel_inv_use (s : socket) (n : nat) (t : list io) (e : io) :
  uses e = Some s -> e <> SocketClose s ->
  channel_inv (Some s) n t -> channel_inv (Some s) n (t ++ [e]).
Proof.
  intros He Hne (Hu & Hc & Ha & Hr).
  assert (Hcl : closes (t ++ [e]) = closes t).
  { apply closes_snoc_other. intros s' ->. simpl in He. congruence. }
  unfold channel_inv. rewrite Hcl. repeat split; auto.
  - apply never_used_snoc; auto. intros s' Hs.
    assert (s' = s) by congruence. subst s'. apply (Hr s eq_refl).
  - apply Hr; assumption.
  - apply Hr; assumption.
Qed.

(** [close] on the socket in the ref, which is nulled in the same stretch. *)
Lemma channel_inv_close (s : socket) (n : nat) (t : list io) :
  channel_inv (Some s) n t -> channel_inv None n (t ++ [SocketClose s]).
Proof.
  intros (Hu & Hc & Ha & Hr). destruct (Hr s eq_refl) as [Hlt Hopen].
  unfold channel_inv. rewrite closes_app. simpl. repeat split.
  - apply never_used_snoc; auto. intros s' Hs. simpl in Hs.
    assert (s' = s) by congruence. subst s'. exact Hopen.
  - intros s' Hin. apply in_app_or in Hin. destruct Hin as [Hin|[<-|[]]]; auto.
  - intros s' Hs'. right. apply in_or_app.
    destruct (Ha s' Hs') as [Heq|Hin]; [ | left; exact Hin ].
    inversion Heq; subst s'. right. left. reflexivity.
  - discriminate.
  - discriminate.
Qed.

(** A new socket, put in the ref in the same stretch. *)
Lemma channel_inv_create (n : nat) (t : list io) :
  channel_inv None n t -> channel_inv (Some n) (S n) (t ++ [CreateSocket n]).
Proof.
  intros (Hu & Hc & Ha & Hr).
  assert (Hcl : closes (t ++ [CreateSocket n]) = closes t).
  { apply closes_snoc_other. discriminate. }
  unfold channel_inv. rewrite Hcl. repeat split.
  - apply never_used_snoc; auto. discriminate.
  - intros s Hin. apply Hc in Hin. lia.
  - intros s Hs. destruct (Nat.eq_dec s n) as [->|Hne]; [ left; reflexivity | ].
    destruct (Ha s ltac:(lia)) as [Heq|Hin]; [ discriminate | right; exact Hin ].
  - inversion H; subst s. lia.
  - inversion H; subst s. intros Hin. apply Hc in Hin. lia.
Qed.

(** Follow the trace of a stretch back to the state it started in. *)
Ltac channel :=
  unfold channel_ok; cbv -[channel_inv app];
  let H := fresh "Hch" in
  intros H;
  repeat first
    [ exact H
    | apply channel_inv_create
    | apply channel_inv_close
    | apply channel_inv_use; [ reflexivity | discriminate | ]
    | apply channel_inv_skip; [ reflexivity | ] ].

Ltac walk_channel :=
  repeat first
    [ progress simpl
    | match goal with
      | |- _ /\ _ => split
      | |- forall (_ : settled _) (_ : state), _ => intros [?|?] [? ? ? ? ? ? ? ?]
      | |- keeps _ _ ?r =>
          match r with
          | context [match ?x with _ => _ end] => destruct x
          end
      end ].

Lemma cleanup_channel (st : state) : keeps channel_ok st (cleanup st).
Proof.
  destruct st as [em str cs fid n ct tr co].
  unfold cleanup. open_handler. walk_channel.
  all: channel.
Qed.

Lemma handleDisconnectPress_channel (st : state) :
  keeps channel_ok st (handleDisconnectPress st).
Proof.
  destruct st as [em str cs fid n ct tr co].
  unfold handleDisconnectPress, cleanup. open_handler. walk_channel.
  all: channel.
Qed.

Lemma onSocketError_channel (err : error) (st : state) :
  keeps channel_ok st (onSocketError err st).
Proof.
  destruct st as [em str cs fid n ct tr co].
  unfold onSocketError, cleanup. open_handler. walk_channel.
  all: channel.
Qed.

Lemma onSocketMessage_channel (msg address : string) (port : N) (st : state) :
  keeps channel_ok st (onSocketMessage msg address port st).
Proof.
  destruct st as [em str cs fid n ct tr co].
  unfold onSocketMessage. open_handler. channel.
Qed.

Lemma onFFmpegComplete_channel (seen : bool) (s : sid) (st : state) :
  keeps channel_ok st (onFFmpegComplete seen s st).
Proof.
  destruct st as [em str cs fid n ct tr co].
  unfold onFFmpegComplete. open_handler. walk_channel.
  all: channel.
Qed.

Lemma handleStartStream_channel (seen : bool) (st : state) :
  keeps channel_ok st (handleStartStream seen st).
Proof.
  destruct st as [em str cs fid n ct tr co].
  unfold handleStartStream, sendCommand, startFFmpeg, cleanup. open_handler.
  walk_channel.
  all: channel.
Qed.

(** ** The channel invariant in the event loop *)

Lemma land_stable (P : state -> Prop) (st0 : state) (r : res unit) (others : list task) :
  keeps P st0 r -> P st0 -> Forall (keeper P) others -> stable P (land r others).
Proof.
  intros Hr H0 Hall. destruct r as [st a|st e|st rq k]; simpl in *.
  - split; auto.
  - split; auto.
  - destruct Hr as [Hkeep Hk]. split; auto.
    apply Forall_app. split; [ assumption | ]. constructor; [ exact Hk | constructor ].
Qed.

Lemma exec_channel (c : config) (ev : event) :
  stable channel_ok c -> stable channel_ok (exec c ev).
Proof.
  intros [Hnow Hall].
  destruct ev as [seen| | |err|msg address port|seen s|i a]; unfold exec.
  - apply land_stable with (st0 := now c); auto. apply handleStartStream_channel.
  - apply land_stable with (st0 := now c); auto. apply handleDisconnectPress_channel.
  - apply land_stable with (st0 := now c); auto. apply cleanup_channel.
  - apply land_stable with (st0 := now c); auto. apply onSocketError_channel.
  - apply land_stable with (st0 := now c); auto. apply onSocketMessage_channel.
  - apply land_stable with (st0 := now c); auto. apply onFFmpegComplete_channel.
  - destruct (nth_error (pending c) i) as [t|] eqn:Hn; [ | split; assumption ].
    destruct (cast (awaiting t) a) as [o|]; [ | split; assumption ].
    apply land_stable with (st0 := now c); auto.
    + rewrite Forall_forall in Hall. apply Hall. eapply nth_error_In; eauto.
    + apply Forall_remove_nth. exact Hall.
Qed.

Lemma execs_channel (evs : list event) (c : config) :
  stable channel_ok c -> stable channel_ok (execs c evs).
Proof.
  revert c. induction evs as [|ev evs IH]; intros c Hc; simpl; auto.
  apply IH, exec_channel, Hc.
Qed.

Lemma boot_channel (ct : socket -> option error) : stable channel_ok (boot ct).
Proof.
  split; [ | constructor ].
  unfold channel_ok, channel_inv. simpl. split; [ | split; [ | split ] ].
  - intros t1 e t2 s Heq. destruct t1; discriminate.
  - intros s [].
  - intros s Hs. lia.
  - intros s Heq. discriminate.
Qed.

(** X14.  Whatever the user, the drone, the relay and the outside world do,
    in whatever order, no call is ever made on a socket on which [close]
    has been called: nothing is sent on it, it is not bound, no handler is
    installed on it, and it is not closed a second time. *)
Theorem no_call_after_close (ct : socket -> option error) (evs : list event) :
  never_used_after_close (trace (now (execs (boot ct) evs))).
Proof.
  destruct (execs_channel evs (boot ct) (boot_channel ct)) as [(Hu & _) _]. exact Hu.
Qed.

(** X15.  At any moment of any run, every socket the component has created
    but one has been closed: the one in the channel ref, if there is one.
    The component never holds two open sockets. *)
Theorem one_open_socket (ct : socket -> option error) (evs : list event) (s : socket) :
  let st := now (execs (boot ct) evs) in
  s < sockets st ->
  (commandSocket st = Some s /\ ~ In s (closes (trace st)))
  \/ (commandSocket st <> Some s /\ In s (closes (trace st))).
Proof.
  intros st Hs.
  destruct (execs_channel evs (boot ct) (boot_channel ct)) as [(_ & _ & Ha & Hr) _].
  fold st in Ha, Hr. destruct (Ha s Hs) as [Heq|Hin].
  - left. split; [ exact Heq | apply (Hr s Heq) ].
  - right. split; [ | exact Hin ]. intros Heq. apply (Hr s Heq). exact Hin.
Qed.

Lemma one_open_socket_witness :
  0 < sockets (now (execs (boot (fun _ => None)) [PressStart false]))
  /\ ((commandSocket (now (execs (boot (fun _ => None)) [PressStart false])) = Some 0
       /\ ~ In 0 (closes (trace (now (execs (boot (fun _ => None)) [PressStart false])))))
      \/ (commandSocket (now (execs (boot (fun _ => None)) [PressStart false])) <> Some 0
          /\ In 0 (closes (trace (now (execs (boot (fun _ => None)) [PressStart false])))))).
Proof.
  assert (H : 0 < sockets (now (execs (boot (fun _ => None)) [PressStart false])))
    by (vm_compute; lia).
  split; [ exact H | ].
  exact (one_open_socket (fun _ => None) [PressStart false] 0 H).
Defined.

(** X16.  The player is on the screen exactly when the stream is on, it is
    never rendered paused, and the address it reads from is the one the
    relay is told to listen on: the relay command ends with it.  Otherwise
    the placeholder is shown. *)
Theorem player_reads_what_relay_serves (st : state) :
  match videoContainer (render st) with
  | Video uri paused =>
      isStreaming st = true /\ paused = false
      /\ exists options, ffmpegCommand = options ++ " -listen 1 " ++ uri
  | Placeholder text =>
      isStreaming st = false /\ text = "Stream Paused / Disconnected"
  end.
Proof.
  destruct st as [em [|] [s|] [i|] n ct tr co]; cbn [render isStreaming commandSocket
    ffmpegSessionId videoContainer negb]; repeat split.
  all: exists ("-f h264 -analyzeduration 1000000 -probesize 1000000 -fflags discardcorrupt -fflags nobuffer -flags low_delay -avioflags direct -i udp://0.0.0.0:"
               ++ show_N LOCAL_VIDEO_INPUT_PORT ++ "?timeout=5000000 -c:v copy -f mpegts");
    vm_compute; reflexivity.
Qed.
